(** * OpenDSU core: the anchoring client and the dossier builder

    A shallow embedding of [anchoring/index.js] ([versions], [addVersion])
    and of [dt/DossierBuilder.js] ([buildDossier]).

    The JavaScript code talks to its collaborators (configuration, service
    locator, HTTP client, identifier parser, shared enclave) through
    callbacks and promises.  The embedding records what a call does as a
    trace of events (requests issued, callbacks invoked), and takes the
    answers of the collaborators as parameters of a [Section]. *)

From Stdlib Require Import String Ascii ZArith List Lia.
From stdpp Require Import base option list gmap strings.

(** ** JavaScript values, completions and promises *)

Module Js.

(** Values that travel in the error position of a callback or as the
    reason of a rejected promise. *)
Inductive JsError : Type :=
| ErrString (s : string)
    (* a bare string used as an error *)
| ErrTypeError (what : string)
    (* the engine's TypeError; [what] names the property or call *)
| ErrObject (statusCode : option Z) (message : option string).
    (* an object read through its statusCode and message fields;
       [None] is undefined *)

#[global] Instance JsError_eq_dec : EqDecision JsError.
Proof. solve_decision. Defined.

(** How the body of a function ends. *)
Inductive Completion (A : Type) : Type :=
| Normal (a : A)
| Throw (e : JsError).
Arguments Normal {A} a.
Arguments Throw {A} e.

(** A settled promise; also the element of the array that
    [Promise.allSettled] resolves with:
    [{status: 'fulfilled', value}] or [{status: 'rejected', reason}]. *)
Inductive Settled (A : Type) : Type :=
| Fulfilled (value : A)
| Rejected (reason : JsError).
Arguments Fulfilled {A} value.
Arguments Rejected {A} reason.

(** [response.status === 'fulfilled'] *)
Definition is_fulfilled {A} (r : Settled A) : bool :=
  match r with Fulfilled _ => true | Rejected _ => false end.

(** [response.status === 'rejected'] *)
Definition is_rejected {A} (r : Settled A) : bool :=
  match r with Fulfilled _ => false | Rejected _ => true end.

(** [responses.find((response) => response.status === 'fulfilled')]
    read through [.value]: the value of the first fulfilled element, in
    the order of the array.  [None]: [find] returned undefined. *)
Fixpoint find_fulfilled {A} (responses : list (Settled A)) : option A :=
  match responses with
  | [] => None
  | Fulfilled value :: _ => Some value
  | Rejected _ :: responses' => find_fulfilled responses'
  end.

(** [responses.find((response) => response.status === 'rejected')]
    read through [.reason]. *)
Fixpoint find_rejected {A} (responses : list (Settled A)) : option JsError :=
  match responses with
  | [] => None
  | Rejected reason :: _ => Some reason
  | Fulfilled _ :: responses' => find_rejected responses'
  end.

(** An argument of a function with optional parameters: absent, a value
    of the documented type, or a function (the callback moved forward). *)
Inductive Arg (A F : Type) : Type :=
| ArgUndefined
| ArgValue (a : A)
| ArgFunction (f : F).
Arguments ArgUndefined {A F}.
Arguments ArgValue {A F} a.
Arguments ArgFunction {A F} f.

(** Truthiness of an error value, as [if (err)] tests it: the empty
    string is falsy, objects and non-empty strings are truthy. *)
Definition truthy_error (e : JsError) : bool :=
  match e with
  | ErrString s => negb (String.eqb s EmptyString)
  | ErrTypeError _ | ErrObject _ _ => true
  end.

(** Truthiness of a possibly undefined string. *)
Definition truthy_string (s : option string) : bool :=
  match s with
  | Some s => negb (String.eqb s EmptyString)
  | None => false
  end.

(** [s || d] for a possibly undefined string [s]. *)
Definition or_default (s : option string) (d : string) : string :=
  match s with
  | Some s' => if truthy_string s then s' else d
  | None => d
  end.

(** *** Code that emits events and may throw *)

Section Effects.
Context {E : Type}.

Definition M (A : Type) : Type := list E * Completion A.

Definition ret {A} (a : A) : M A := ([], Normal a).
Definition throw {A} (e : JsError) : M A := ([], Throw e).
Definition emit (ev : E) : M unit := ([ev], Normal tt).

Definition bind {A B} (m : M A) (k : A -> M B) : M B :=
  match m with
  | (tr, Normal a) => let '(tr', c) := k a in (tr ++ tr', c)
  | (tr, Throw e) => (tr, Throw e)
  end.

#[global] Instance M_ret : MRet M := @ret.
#[global] Instance M_bind : MBind M := fun A B k m => bind m k.

Definition trace {A} (m : M A) : list E := fst m.

Definition emit_all (evs : list E) : M unit := (evs, Normal tt).

(** A computation that only returns or throws. *)
Definition lift {A} (c : Completion A) : M A := ([], c).

(** [p.then(f)]: the reaction runs when [p] is fulfilled; the derived
    promise is rejected when the reaction throws or [p] is rejected. *)
Definition then_ {A B} (p : Settled A) (f : A -> M B) : M (Settled B) :=
  match p with
  | Fulfilled a =>
      match f a with
      | (tr, Normal b) => (tr, Normal (Fulfilled b))
      | (tr, Throw e) => (tr, Normal (Rejected e))
      end
  | Rejected e => ret (Rejected e)
  end.

(** [p.catch(h)] *)
Definition catch_ {A} (p : Settled A) (h : JsError -> M A) : M (Settled A) :=
  match p with
  | Fulfilled a => ret (Fulfilled a)
  | Rejected e =>
      match h e with
      | (tr, Normal a) => (tr, Normal (Fulfilled a))
      | (tr, Throw e') => (tr, Normal (Rejected e'))
      end
  end.

(** [array.map(f)] with a callback that may throw: the first exception
    ends the iteration. *)
Fixpoint array_map {A B} (f : A -> M B) (l : list A) : M (list B) :=
  match l with
  | [] => ret []
  | x :: l' =>
      y ← f x; ys ← array_map f l'; mret (y :: ys)
  end.
End Effects.

Arguments M : clear implicits.

(** *** Promise.allSettled

    The combinator keeps one slot per input promise and a counter of the
    promises still pending.  When the promise at [index] settles, its
    outcome is stored in slot [index] and the counter decreases; the
    combined promise is resolved with the slots when the counter reaches
    zero.  [arrival] lists the indices in the order in which the input
    promises settle. *)
Section AllSettled.
Context {A : Type}.

Record AllSettledState : Type := {
  values : list (option (Settled A));
  remainingElementsCount : nat
}.

Definition allSettled_start (n : nat) : AllSettledState :=
  {| values := replicate n None; remainingElementsCount := n |}.

Definition allSettled_element (promises : list (Settled A))
    (st : AllSettledState) (index : nat) : AllSettledState :=
  match promises !! index, values st !! index with
  | Some outcome, Some None =>
      {| values := <[index := Some outcome]> (values st);
         remainingElementsCount := pred (remainingElementsCount st) |}
  | _, _ => st (* no such promise, or slot already written *)
  end.

(** [None]: the combined promise stays pending. *)
Definition allSettled (promises : list (Settled A)) (arrival : list nat)
    : option (list (Settled A)) :=
  let st := foldl (allSettled_element promises)
                  (allSettled_start (length promises)) arrival in
  if Nat.eqb (remainingElementsCount st) 0
  then Some (omap id (values st))
  else None.
End AllSettled.
Arguments AllSettledState : clear implicits.

End Js.


(** ** JSON.stringify on strings *)

Module Json.

Definition dquote : string := String (ascii_of_nat 34) EmptyString.
Definition backslash : string := String (ascii_of_nat 92) EmptyString.

Definition hex_digit (n : nat) : ascii :=
  nth n (list_ascii_of_string "0123456789abcdef") (ascii_of_nat 48).

(** QuoteJSONString, one code unit at a time. *)
Definition quote_char (c : ascii) : string :=
  let n := nat_of_ascii c in
  if Nat.eqb n 8 then backslash +:+ "b"
  else if Nat.eqb n 9 then backslash +:+ "t"
  else if Nat.eqb n 10 then backslash +:+ "n"
  else if Nat.eqb n 12 then backslash +:+ "f"
  else if Nat.eqb n 13 then backslash +:+ "r"
  else if Nat.eqb n 34 then backslash +:+ dquote
  else if Nat.eqb n 92 then backslash +:+ backslash
  else if Nat.ltb n 32 then
    backslash +:+ "u00" +:+
    String (hex_digit (n / 16)) (String (hex_digit (n mod 16)) EmptyString)
  else String c EmptyString.

Fixpoint quote_chars (s : string) : string :=
  match s with
  | EmptyString => EmptyString
  | String c s' => quote_char c +:+ quote_chars s'
  end.

Definition quote (s : string) : string := dquote +:+ quote_chars s +:+ dquote.

(** A string or null. *)
Definition nullable (s : option string) : string :=
  match s with Some s => quote s | None => "null" end.

(** A property of an object: left out when its value is undefined. *)
Definition property (name : string) (value : option string) : list string :=
  match value with
  | Some v => [quote name +:+ ":" +:+ v]
  | None => []
  end.

Fixpoint join (sep : string) (l : list string) : string :=
  match l with
  | [] => EmptyString
  | [x] => x
  | x :: l' => x +:+ sep +:+ join sep l'
  end.

Definition object (members : list string) : string :=
  "{" +:+ join "," members +:+ "}".

End Json.

(** ** Identifiers *)

(** What the code reads of a KeySSI (also of a hash link SSI). *)
Record KeySSI : Type := {
  getDLDomain : option string;   (* [None]: no domain recorded *)
  getAnchorId : string;
  getIdentifier : string
}.

#[global] Instance KeySSI_eq_dec : EqDecision KeySSI.
Proof. solve_decision. Defined.

(** ** anchoring/index.js *)

Module Anchoring.
Import Js.

(** Callbacks are told apart by a name. *)
Definition Callback : Type := nat.

(** The error that [doPut] hands to its callback. *)
Record HttpError : Type := {
  statusCode : option Z;
  message : option string
}.

(** [doPut(url, body, (err, data) => ...)] *)
Inductive PutResult : Type :=
| PutError (err : HttpError)
| PutData (data : string).

(** What [response.json()] decodes to: an array of strings, or a value
    without a [map] method. *)
Inductive HlStrings : Type :=
| HlArray (l : list string)
| HlOther.

(** The response object of [fetch], read through [json()]. *)
Record Response : Type := { json : Settled HlStrings }.

(** The payload of a write. [last = None] is [null]; an undefined
    [zkpValue] or [digitalProof] is [None]. *)
Record Hash : Type := { last : option string; new : string }.
Record Body : Type := {
  hash : Hash;
  zkpValue : option string;
  digitalProof : option string
}.

(** [JSON.stringify(body)] *)
Definition JSON_stringify (body : Body) : string :=
  Json.object
    (Json.property "hash"
       (Some (Json.object
          (Json.property "last" (Some (Json.nullable (last (hash body)))) ++
           Json.property "new" (Some (Json.quote (new (hash body))))))) ++
     Json.property "zkpValue" (Json.quote <$> zkpValue body) ++
     Json.property "digitalProof" (Json.quote <$> digitalProof body)).

(** The second argument of a successful callback. *)
Inductive Value : Type :=
| HashLinks (l : list KeySSI)
| Data (d : string).

Inductive Event : Type :=
| CachedVersions (anchorId : string) (callback : Callback)
    (* cachedAnchoring.versions(anchorId, callback) *)
| CachedAddVersion (anchorId newIdentifier : string) (callback : Callback)
    (* cachedAnchoring.addVersion(anchorId, identifier, callback) *)
| GetAnchoringServices (dlDomain : option string)
| Fetch (url : string)
| DoPut (url body : string)
| CallbackErr (callback : Callback) (err : JsError)
    (* callback(err) *)
| CallbackOk (callback : Callback) (value : Value)
    (* callback(null, value) *)
| UnhandledRejection (reason : JsError).
    (* a rejected promise nobody listens to *)

Definition is_callback (ev : Event) : bool :=
  match ev with CallbackErr _ _ | CallbackOk _ _ => true | _ => false end.

Definition is_request (ev : Event) : bool :=
  match ev with Fetch _ | DoPut _ _ => true | _ => false end.

Definition is_locate (ev : Event) : bool :=
  match ev with GetAnchoringServices _ => true | _ => false end.

Definition is_cached (ev : Event) : bool :=
  match ev with CachedVersions _ _ | CachedAddVersion _ _ _ => true | _ => false end.

(** What can happen once the requests have settled. *)
Definition is_outcome (ev : Event) : bool :=
  match ev with
  | CallbackErr _ _ | CallbackOk _ _ | UnhandledRejection _ => true
  | _ => false
  end.

(** A promise that is dropped: its rejection stays unhandled. *)
Definition unhandled {A} (p : Settled A) : M Event unit :=
  match p with
  | Fulfilled _ => mret tt
  | Rejected e => emit (UnhandledRejection e)
  end.

(** [if (typeof arg === "function") { callback = arg; arg = undefined; }] *)
Definition shifted_callback {A} (arg : Arg A Callback) (callback : Callback)
    : Callback :=
  match arg with ArgFunction f => f | _ => callback end.

Definition shifted_value {A} (arg : Arg A Callback) : option A :=
  match arg with ArgValue a => Some a | _ => None end.

(** [`${service}/anchor/versions/${keySSI.getAnchorId()}`] *)
Definition versions_url (anchorId service : string) : string :=
  service +:+ "/anchor/versions/" +:+ anchorId.

(** [`${service}/anchor/add/${anchorId}`] *)
Definition add_url (anchorId service : string) : string :=
  service +:+ "/anchor/add/" +:+ anchorId.

(** The object [body] of [addVersion]; [lastHashLinkSSI] is tested for
    truthiness, which an SSI object passes and undefined fails. *)
Definition addVersion_body (newHashLinkSSI : KeySSI)
    (lastHashLinkSSI : option KeySSI) (zkpValue digitalProof : option string)
    : Body :=
  {| hash := {| last := getIdentifier <$> lastHashLinkSSI;
                new := getIdentifier newHashLinkSSI |};
     zkpValue := zkpValue;
     digitalProof := digitalProof |}.

Section Client.
(** [constants.DOMAINS.VAULT] and [constants.CACHE.VAULT_TYPE] *)
Variable VAULT : string.
Variable VAULT_TYPE : string.
(** The process-wide settings behind [config.get]. *)
Variable config : gmap string string.
(** [bdns.getAnchoringServices]: [inl err] is the answer [(err, undefined)],
    [inr array] the answer without an error. *)
Variable getAnchoringServices : option string -> JsError + list string.
(** [keyssi.parse], which throws on a malformed identifier. *)
Variable keyssi_parse : string -> Completion KeySSI.
(** The outcome of the [i]-th request of the call. *)
Variable fetch : nat -> string -> Settled Response.
Variable doPut : nat -> string -> string -> PutResult.
(** The order in which the requests of the call settle. *)
Variable arrival : list nat.

(** [dlDomain === constants.DOMAINS.VAULT &&
     typeof config.get(constants.CACHE.VAULT_TYPE) !== "undefined"] *)
Definition bypass (dlDomain : option string) : bool :=
  bool_decide (dlDomain = Some VAULT) &&
  bool_decide (is_Some (config !! VAULT_TYPE)).

(** [response.value.json().then((hlStrings) => ...)]: the derived
    promise is dropped. *)
Definition versions_decode (callback : Callback) (value : Response)
    : M Event unit :=
  p ← then_ (json value) (fun hlStrings =>
         hashLinks ← match hlStrings with
                     | HlArray l => array_map (fun hlString => lift (keyssi_parse hlString)) l
                     | HlOther => throw (ErrTypeError "hlStrings.map")
                     end;
         emit (CallbackOk callback (HashLinks hashLinks)));
  unhandled p.

(** The reaction to [Promise.allSettled(queries)] in [versions]. *)
Definition versions_settled (callback : Callback)
    (responses : list (Settled Response)) : M Event unit :=
  value ← match find_fulfilled responses with
          | Some value => mret value
          | None => throw (ErrTypeError "response.value")
          end;
  versions_decode callback value.

(** [Promise.allSettled(queries).then(...).catch((err) => callback(err))];
    nothing happens while a query is pending. *)
Definition versions_aggregate (callback : Callback)
    (queries : list (Settled Response)) : M Event unit :=
  match allSettled queries arrival with
  | None => mret tt
  | Some responses =>
      p ← then_ (Fulfilled responses) (versions_settled callback);
      p' ← catch_ p (fun err => emit (CallbackErr callback err));
      unhandled p'
  end.

Definition versions (keySSI : KeySSI) (authToken : Arg string Callback)
    (callback : Callback) : M Event unit :=
  let callback := shifted_callback authToken callback in
  let dlDomain := getDLDomain keySSI in
  let anchorId := getAnchorId keySSI in
  if bypass dlDomain then emit (CachedVersions anchorId callback)
  else
    emit (GetAnchoringServices (getDLDomain keySSI));;
    match getAnchoringServices (getDLDomain keySSI) with
    | inl err =>
        (* [if (err)]; a falsy error comes without an array, and
           reading its length throws *)
        if truthy_error err then emit (CallbackErr callback err)
        else throw (ErrTypeError "anchoringServicesArray.length")
    | inr anchoringServicesArray =>
        if Nat.eqb (length anchoringServicesArray) 0
        then emit (CallbackErr callback (ErrString "No anchoring service provided"))
        else
          let urls := versions_url (getAnchorId keySSI) <$> anchoringServicesArray in
          emit_all (Fetch <$> urls);;
          let queries := imap fetch urls in
          versions_aggregate callback queries
    end.

(** The promise built around one [doPut]. *)
Definition put_query (result : PutResult) : Settled string :=
  match result with
  | PutError err =>
      Rejected (ErrObject (statusCode err)
        (Some (if bool_decide (statusCode err = Some 428%Z)
               then "Unable to add alias: versions out of sync"
               else or_default (message err) "Error")))
  | PutData data => Fulfilled data
  end.

(** The reaction to [Promise.allSettled(queries)] in [addVersion]. *)
Definition addVersion_settled (callback : Callback)
    (responses : list (Settled string)) : M Event unit :=
  match find_fulfilled responses with
  | Some value => emit (CallbackOk callback (Data value))
  | None =>
      match find_rejected responses with
      | Some reason => emit (CallbackErr callback reason)
      | None => throw (ErrTypeError "rejected.reason")
      end
  end.

(** [Promise.allSettled(queries).then(...)], without a [catch]. *)
Definition addVersion_aggregate (callback : Callback)
    (queries : list (Settled string)) : M Event unit :=
  match allSettled queries arrival with
  | None => mret tt
  | Some responses =>
      p ← then_ (Fulfilled responses) (addVersion_settled callback);
      unhandled p
  end.

(** One promise per endpoint, each around one [doPut]. *)
Definition addVersion_queries (urls : list string) (body : Body)
    : list (Settled string) :=
  imap (fun i url => put_query (doPut i url (JSON_stringify body))) urls.

Definition addVersion (keySSI newHashLinkSSI : KeySSI)
    (lastHashLinkSSI : Arg KeySSI Callback) (zkpValue : Arg string Callback)
    (digitalProof : option string) (callback : Callback) : M Event unit :=
  let callback := shifted_callback lastHashLinkSSI callback in
  let lastHashLinkSSI := shifted_value lastHashLinkSSI in
  let callback := shifted_callback zkpValue callback in
  let zkpValue := shifted_value zkpValue in
  let dlDomain := getDLDomain keySSI in
  let anchorId := getAnchorId keySSI in
  if bypass dlDomain
  then emit (CachedAddVersion anchorId (getIdentifier newHashLinkSSI) callback)
  else
    emit (GetAnchoringServices dlDomain);;
    match getAnchoringServices dlDomain with
    | inl err =>
        if truthy_error err then emit (CallbackErr callback err)
        else throw (ErrTypeError "anchoringServicesArray.length")
    | inr anchoringServicesArray =>
        if Nat.eqb (length anchoringServicesArray) 0
        then emit (CallbackErr callback (ErrString "No anchoring service provided"))
        else
          let body :=
            addVersion_body newHashLinkSSI lastHashLinkSSI zkpValue digitalProof in
          let urls := add_url anchorId <$> anchoringServicesArray in
          emit_all ((fun url => DoPut url (JSON_stringify body)) <$> urls);;
          let queries := addVersion_queries urls body in
          addVersion_aggregate callback queries
    end.
End Client.
End Anchoring.

(** ** dt/DossierBuilder.js *)

Module DossierBuilder.
Import Js.

Definition Callback : Type := nat.

(** The build configuration; [buildDossier] sets [skipFsWrite] on it. *)
Record Config : Type := {
  seed : option string;
  domain : option string;
  skipFsWrite : bool
}.

(** The white space of [\s], on strings read as UTF-8: the ASCII
    characters tab, line feed, vertical tab, form feed, carriage return
    and space, and U+00A0, U+1680, U+2000 to U+200A, U+2028, U+2029,
    U+202F, U+205F, U+3000 and U+FEFF. *)
Definition is_ascii_space (b : nat) : bool :=
  (Nat.leb 9 b && Nat.leb b 13) || Nat.eqb b 32.

(** A white space character of three bytes. *)
Definition is_space3 (b1 b2 b3 : nat) : bool :=
  (Nat.eqb b1 225 && Nat.eqb b2 154 && Nat.eqb b3 128) ||
  (Nat.eqb b1 226 && Nat.eqb b2 128 &&
     ((Nat.leb 128 b3 && Nat.leb b3 138) ||
      Nat.eqb b3 168 || Nat.eqb b3 169 || Nat.eqb b3 175)) ||
  (Nat.eqb b1 226 && Nat.eqb b2 129 && Nat.eqb b3 159) ||
  (Nat.eqb b1 227 && Nat.eqb b2 128 && Nat.eqb b3 128) ||
  (Nat.eqb b1 239 && Nat.eqb b2 187 && Nat.eqb b3 191).

(** The number of bytes of the white space character at the head of [s];
    0 when [s] does not start with white space. *)
Definition space_width (s : string) : nat :=
  match s with
  | String c1 (String c2 (String c3 _)) =>
      let b1 := nat_of_ascii c1 in
      let b2 := nat_of_ascii c2 in
      let b3 := nat_of_ascii c3 in
      if is_ascii_space b1 then 1
      else if Nat.eqb b1 194 && Nat.eqb b2 160 then 2
      else if is_space3 b1 b2 b3 then 3
      else 0
  | String c1 (String c2 EmptyString) =>
      let b1 := nat_of_ascii c1 in
      let b2 := nat_of_ascii c2 in
      if is_ascii_space b1 then 1
      else if Nat.eqb b1 194 && Nat.eqb b2 160 then 2
      else 0
  | String c1 EmptyString =>
      if is_ascii_space (nat_of_ascii c1) then 1 else 0
  | EmptyString => 0
  end.

(** [command.split(/\s+/)]: [cur] is the piece being read, [in_space]
    says that the previous character was white space, [skip] counts the
    bytes left of the white space character being passed. *)
Fixpoint split_spaces (skip : nat) (in_space : bool) (cur : string) (s : string)
    : list string :=
  match s with
  | EmptyString => [cur]
  | String c s' =>
      match skip with
      | S skip' => split_spaces skip' in_space cur s'
      | O =>
          match space_width s with
          | S width =>
              if in_space then split_spaces width true cur s'
              else cur :: split_spaces width true EmptyString s'
          | O => split_spaces 0 false (cur +:+ String c EmptyString) s'
          end
      end
  end.

Definition split (command : string) : list string :=
  split_spaces 0 false EmptyString command.

Section Builder.
(** The answers of the collaborators: [inl err] (or [Some err]) is an
    error on which the test [if (err)] of the code takes the error
    branch. *)

(** The archive (DSU) handle and what the code calls on it. *)
Variable Archive : Type.
Variable batchInProgress : Archive -> bool.
Variable beginBatch : Archive -> Completion Archive.
Variable commitBatch : Archive -> JsError + Archive.
Variable getKeySSIAsString : Archive -> JsError + string.

(** A command of [./commands]: [execute(args, bar, next, callback)]
    answers with an error or the updated archive.  The commands covered
    are those that read [next], the commands still to run, and leave it
    as it is. *)
Definition Command : Type :=
  list string -> Archive -> list string -> JsError + Archive.
Variable _getByName : string -> option Command.

(** The file commands behind [readFile] and [writeFile]. *)
Variable readfile : option string -> JsError + string.
Variable createfile : option string -> string -> option JsError.

(** The KeySSI space of [_getKeySSISpace()]. *)
Variable keyssi_parse : string -> Completion KeySSI.
Variable createTemplateSeedSSI : option string -> KeySSI.

(** The shared enclave, or the error of [_getSharedEnclave]. *)
Record Enclave : Type := {
  createDSU : KeySSI -> bool -> JsError + Archive;
    (* the flag is the option useSSIAsIdentifier *)
  loadDSU : KeySSI -> JsError + Archive
}.
Variable _getSharedEnclave : JsError + Enclave.

(** [require("./index").initialiseBuildWallet] *)
Variable initialiseBuildWallet : option JsError.

(** The constructor argument [sourceDSU]. *)
Variable sourceDSU : option Archive.

Inductive Event : Type :=
| Log (args : list string)
| InitialiseBuildWallet
| ReadFile (filePath : option string)
| WriteFile (filePath : option string) (data : string)
| GetSharedEnclave
| CreateDSU (ssi : KeySSI) (useSSIAsIdentifier : bool)
| LoadDSU (ssi : KeySSI)
| BeginBatch (bar : Archive)
| CommitBatch (bar : Archive)
| GetKeySSIAsString (bar : Archive)
| Execute (cmdName : string) (args : list string) (bar : Archive) (next : list string)
| CallbackErr (callback : Callback) (err : JsError)
| CallbackOk (callback : Callback) (keySSI : string).

Definition is_load (ev : Event) : bool :=
  match ev with LoadDSU _ => true | _ => false end.

Definition writeFile (filePath : option string) (data : string)
    (callback : Callback) : list Event :=
  WriteFile filePath data ::
  match createfile filePath data with
  | Some err => [CallbackErr callback err]
  | None => [CallbackOk callback data]
  end.

Definition storeKeySSI (seed_path : option string) (keySSI : string)
    (callback : Callback) : list Event :=
  writeFile seed_path keySSI callback.

(** [runCommand]: the events, and what the command hands to its
    callback. *)
Definition runCommand (bar : Archive) (command : string) (next : list string)
    : list Event * (JsError + Archive) :=
  let args := split command in
  let cmdName := hd EmptyString args in
  let args := tl args in
  match _getByName cmdName with
  | Some cmd => ([Execute cmdName args bar next], cmd args bar next)
  | None => ([], inl (ErrString ("Command not recognized: " +:+ cmdName)))
  end.

Definition saveDSU (bar : Archive) (cfg : Config) (callback : Callback)
    : list Event :=
  GetKeySSIAsString bar ::
  match getKeySSIAsString bar with
  | inl err => [CallbackErr callback err]
  | inr barKeySSI =>
      if bool_decide (is_Some sourceDSU) || skipFsWrite cfg
      then [CallbackOk callback barKeySSI]
      else storeKeySSI (seed cfg) barKeySSI callback
  end.

Fixpoint updateDossier (commands : list string) (bar : Archive)
    (cfg : Config) (callback : Callback) : list Event :=
  match commands with
  | [] =>
      CommitBatch bar ::
      match commitBatch bar with
      | inl err => [CallbackErr callback err]
      | inr bar => saveDSU bar cfg callback
      end
  | cmd :: commands =>
      let begun :=
        if batchInProgress bar then ([], Normal bar)
        else ([BeginBatch bar], beginBatch bar) in
      match begun with
      | (evs, Throw e) => evs ++ [CallbackErr callback e]
      | (evs, Normal bar) =>
          let '(evs', result) := runCommand bar cmd commands in
          evs ++ evs' ++
          match result with
          | inl err => [CallbackErr callback err]
          | inr updated_bar => updateDossier commands updated_bar cfg callback
          end
      end
  end.

Definition createDossier (conf : Config) (commands : list string)
    (callback : Callback) : list Event :=
  Log ["creating a new dossier..."] ::
  GetSharedEnclave ::
  match _getSharedEnclave with
  | inl err => [CallbackErr callback err]
  | inr sharedEnclave =>
      let ssi := createTemplateSeedSSI (domain conf) in
      CreateDSU ssi false ::
      match createDSU sharedEnclave ssi false with
      | inl err => [CallbackErr callback err]
      | inr bar => updateDossier commands bar conf callback
      end
  end.

(** [keySSI.getDLDomain() && keySSI.getDLDomain() !== configOrDSU.domain] *)
Definition domain_changed (keySSI : KeySSI) (configOrDSU : Config) : bool :=
  truthy_string (getDLDomain keySSI) &&
  negb (bool_decide (getDLDomain keySSI = domain configOrDSU)).

(** The inner function [builder] of [buildDossier]. *)
Definition builder (configOrDSU : Config) (commands : list string)
    (callback : Callback) (keySSI : string) : list Event :=
  match keyssi_parse keySSI with
  | Throw _ =>
      Log ["Invalid keySSI"] :: createDossier configOrDSU commands callback
  | Normal keySSI =>
      if domain_changed keySSI configOrDSU
      then Log ["Domain change detected."] ::
           createDossier configOrDSU commands callback
      else
        GetSharedEnclave ::
        match _getSharedEnclave with
        | inl err => [CallbackErr callback err]
        | inr sharedEnclave =>
            LoadDSU keySSI ::
            let configOrDSU :=
              {| seed := seed configOrDSU; domain := domain configOrDSU;
                 skipFsWrite := true |} in
            match loadDSU sharedEnclave keySSI with
            | inl _ =>
                Log ["DSU not available. Creating a new DSU for";
                     getIdentifier keySSI] ::
                CreateDSU keySSI true ::
                match createDSU sharedEnclave keySSI true with
                | inl err => [CallbackErr callback err]
                | inr bar => updateDossier commands bar configOrDSU callback
                end
            | inr bar =>
                Log ["Dossier updating..."] ::
                updateDossier commands bar configOrDSU callback
            end
        end
  end.

(** The first argument of [buildDossier]: a destination archive or a
    configuration. *)
Inductive ConfigOrDSU : Type :=
| IsArchive (bar : Archive)
| IsConfig (cfg : Config).

(** [if (typeof commands === 'function') { callback = commands;
     commands = []; }] *)
Definition given_callback (commands : list string + Callback)
    (callback : Callback) : Callback :=
  match commands with inr f => f | inl _ => callback end.

Definition given_commands (commands : list string + Callback) : list string :=
  match commands with inr _ => [] | inl commands => commands end.

Definition buildDossier (configOrDSU : ConfigOrDSU)
    (commands : list string + Callback) (callback : Callback) : list Event :=
  let callback := given_callback commands callback in
  let commands := given_commands commands in
  InitialiseBuildWallet ::
  match initialiseBuildWallet with
  | Some err => [CallbackErr callback err]
  | None =>
      match configOrDSU with
      | IsArchive bar =>
          updateDossier commands bar
            {| seed := None; domain := None; skipFsWrite := true |} callback
      | IsConfig cfg =>
          ReadFile (seed cfg) ::
          match readfile (seed cfg) with
          | inl _ => createDossier cfg commands callback
          | inr content =>
              if Nat.eqb (String.length content) 0
              then createDossier cfg commands callback
              else builder cfg commands callback content
          end
      end
  end.
End Builder.

Arguments Log {Archive} args.
Arguments InitialiseBuildWallet {Archive}.
Arguments ReadFile {Archive} filePath.
Arguments WriteFile {Archive} filePath data.
Arguments GetSharedEnclave {Archive}.
Arguments CreateDSU {Archive} ssi useSSIAsIdentifier.
Arguments LoadDSU {Archive} ssi.
Arguments BeginBatch {Archive} bar.
Arguments CommitBatch {Archive} bar.
Arguments GetKeySSIAsString {Archive} bar.
Arguments Execute {Archive} cmdName args bar next.
Arguments CallbackErr {Archive} callback err.
Arguments CallbackOk {Archive} callback keySSI.
Arguments is_load {Archive} ev.
Arguments createDSU {Archive} e ssi useSSIAsIdentifier.
Arguments loadDSU {Archive} e ssi.
Arguments IsArchive {Archive} bar.
Arguments IsConfig {Archive} cfg.

End DossierBuilder.


(** ** Vocabulary of the properties *)

Section Vocabulary.
Import Js.
Context {A : Type}.
Implicit Types (promises : list (Settled A)) (arrival settled : list nat).

(** The slots once the promises listed in [settled] have settled. *)
Definition slots promises settled : list (option (Settled A)) :=
  imap (fun i outcome => if bool_decide (i ∈ settled) then Some outcome else None)
       promises.

(** The outcomes in the order in which the promises settle. *)
Definition in_settlement_order promises arrival : list (Settled A) :=
  omap (fun i => promises !! i) arrival.

(** The value of the promise that is fulfilled first in time. *)
Definition first_fulfilled_in_settlement_order promises arrival : option A :=
  find_fulfilled (in_settlement_order promises arrival).

End Vocabulary.

(** The callback invocations and the HTTP requests of a trace. *)
Definition callbacks (tr : list Anchoring.Event) : list Anchoring.Event :=
  List.filter Anchoring.is_callback tr.

Definition requests (tr : list Anchoring.Event) : list Anchoring.Event :=
  List.filter Anchoring.is_request tr.

Definition locates (tr : list Anchoring.Event) : list Anchoring.Event :=
  List.filter Anchoring.is_locate tr.

Definition delegations (tr : list Anchoring.Event) : list Anchoring.Event :=
  List.filter Anchoring.is_cached tr.

(** The [loadDSU] calls of a build. *)
Definition loads {Archive} (tr : list (DossierBuilder.Event Archive))
    : list (DossierBuilder.Event Archive) :=
  List.filter DossierBuilder.is_load tr.

(** A sample deployment: the vault domain, two settings, and a parser
    that accepts every string but the empty one. *)
Module Sample.
Import Js Anchoring.

Definition VAULT : string := "vault".
Definition VAULT_TYPE : string := "vaultType".

Definition no_cache : gmap string string := ∅.
Definition with_cache : gmap string string := {[ VAULT_TYPE := "fs" ]}.

Definition ssi (dlDomain identifier : string) : KeySSI :=
  {| getDLDomain := Some dlDomain;
     getAnchorId := identifier;
     getIdentifier := identifier |}.

Definition parse (hlString : string) : Completion KeySSI :=
  if String.eqb hlString EmptyString
  then Throw (ErrString "Invalid SSI")
  else Normal (ssi "default" hlString).

Definition locate (services : list string) (dlDomain : option string)
    : JsError + list string :=
  inr services.

Definition ok (l : list string) : Settled Response :=
  Fulfilled {| json := Fulfilled (HlArray l) |}.

Definition down : Settled Response := Rejected (ErrString "ECONNREFUSED").

(** Endpoint number [i] answers with the [i]-th element of [answers]. *)
Definition fetch_from (answers : list (Settled Response)) (i : nat) (url : string)
    : Settled Response :=
  nth i answers down.

Definition put_from (answers : list PutResult) (i : nat) (url body : string)
    : PutResult :=
  nth i answers (PutError {| statusCode := None; message := None |}).

Definition conflict : PutResult :=
  PutError {| statusCode := Some 428%Z; message := Some "Precondition Required" |}.

Definition failure (status : Z) (message : option string) : PutResult :=
  PutError {| statusCode := Some status; message := message |}.

(** The resource the samples read and write. *)
Definition anchor : KeySSI := ssi "default" "A".
Definition vault_anchor : KeySSI := ssi VAULT "A".

Definition two_services : list string := ["https://a.example"; "https://b.example"].
Definition three_services : list string :=
  ["https://a.example"; "https://b.example"; "https://c.example"].

End Sample.

(** A sample build: the seed file holds an identifier of domain old, the
    configuration asks for domain default. *)
Module DossierSample.
Import Js DossierBuilder.

Definition Archive : Type := nat.

Definition stored : KeySSI :=
  {| getDLDomain := Some "old"; getAnchorId := "anchor"; getIdentifier := "ssi:seed:old" |}.

Definition parse (s : string) : Completion KeySSI :=
  if String.eqb s "ssi:seed:old" then Normal stored
  else Throw (ErrString "Invalid SSI").

Definition template (dlDomain : option string) : KeySSI :=
  {| getDLDomain := dlDomain; getAnchorId := "template"; getIdentifier := "template" |}.

Definition enclave : Enclave Archive :=
  {| createDSU := fun _ _ => inr 1; loadDSU := fun _ => inr 2 |}.

Definition commands (name : string) : option (Command Archive) :=
  if String.eqb name "addfolder" then Some (fun _ bar _ => inr bar) else None.

Definition cfg : Config :=
  {| seed := Some "./seed"; domain := Some "default"; skipFsWrite := false |}.

Definition build : list (Event Archive) :=
  buildDossier Archive (fun _ => false) (fun bar => Normal bar) (fun bar => inr bar)
    (fun _ => inr "ssi:seed:default") commands (fun _ => inr "ssi:seed:old")
    (fun _ _ => None) parse template (inr enclave) None None
    (IsConfig cfg) (inl ["addfolder code"]) 5.

End DossierSample.


(** ** Further vocabulary *)

(** The number of slots of [Promise.allSettled] still empty. *)
Fixpoint pending_count {X} (l : list (option X)) : nat :=
  match l with
  | [] => 0
  | None :: l' => S (pending_count l')
  | Some _ :: l' => pending_count l'
  end.

(** What every reachable state of the combinator satisfies. *)
Definition allSettled_inv {A} (promises : list (Js.Settled A))
    (st : Js.AllSettledState A) : Prop :=
  Js.remainingElementsCount st = pending_count (Js.values st) /\
  length (Js.values st) = length promises /\
  forall i outcome, Js.values st !! i = Some (Some outcome) ->
    promises !! i = Some outcome.

Definition is_unhandled (ev : Anchoring.Event) : bool :=
  match ev with Anchoring.UnhandledRejection _ => true | _ => false end.

(** The rejections of a trace that nobody handles. *)
Definition unhandled_rejections (tr : list Anchoring.Event)
    : list Anchoring.Event :=
  List.filter is_unhandled tr.

Module DossierTrace.
Import DossierBuilder.
Section Events.
Context {Archive : Type}.
Implicit Types (ev : Event Archive) (tr : list (Event Archive)).

Definition is_callback ev : bool :=
  match ev with CallbackErr _ _ | CallbackOk _ _ => true | _ => false end.

Definition is_success ev : bool :=
  match ev with CallbackOk _ _ => true | _ => false end.






Definition callbacks tr := List.filter is_callback tr.
Definition successes tr := List.filter is_success tr.

(** The trace ends with the one invocation of [callback]. *)
Definition calls_back_last (callback : Callback) tr : Prop :=
  exists pre ev,
    tr = pre ++ [ev] /\ callbacks pre = [] /\
    ((exists err, ev = CallbackErr callback err) \/
     (exists keySSI, ev = CallbackOk callback keySSI)).

End Events.
End DossierTrace.

(** The answer of a collaborator carries no error, or a truthy one: the
    answers on which [if (err)] takes the error branch for every error. *)
Definition truthy_answer {T} (answer : Js.JsError + T) : Prop :=
  match answer with
  | inl err => Js.truthy_error err = true
  | inr _ => True
  end.

Definition truthy_report (answer : option Js.JsError) : Prop :=
  match answer with
  | Some err => Js.truthy_error err = true
  | None => True
  end.

(** Further sample builds. *)
Module DossierCases.
Import Js DossierBuilder.

Definition Archive : Type := nat.

(** A build over the commands of [DossierSample], from the content of the
    seed file, the configuration and the answer of [loadDSU]. *)
Definition build_with (content : JsError + string) (cfg : Config)
    (load : JsError + Archive) (commands : list string) : list (Event Archive) :=
  buildDossier Archive (fun _ => false) (fun bar => Normal bar) (fun bar => inr bar)
    (fun _ => inr "ssi:seed:default") DossierSample.commands (fun _ => content)
    (fun _ _ => None) DossierSample.parse DossierSample.template
    (inr {| createDSU := fun _ _ => inr 1; loadDSU := fun _ => load |})
    None None (IsConfig cfg) (inl commands) 5.

(** The same build called without commands: the callback 9 comes second,
    the third argument is left over. *)
Definition build_without_commands : list (Event Archive) :=
  buildDossier Archive (fun _ => false) (fun bar => Normal bar) (fun bar => inr bar)
    (fun _ => inr "ssi:seed:default") DossierSample.commands
    (fun _ => inr "ssi:seed:old") (fun _ _ => None) DossierSample.parse
    DossierSample.template
    (inr {| createDSU := fun _ _ => inr 1; loadDSU := fun _ => inr 2 |})
    None None (IsConfig DossierSample.cfg) (inr 9) 5.



End DossierCases.


(** * Properties *)

(** ** Promise.allSettled keeps the order of its input *)

Section AllSettledFacts.
Import Js.
Context {A : Type}.
Implicit Types (promises : list (Settled A)) (arrival settled : list nat).

Lemma slots_lookup_Some promises settled i outcome :
  promises !! i = Some outcome ->
  slots promises settled !! i =
  Some (if bool_decide (i ∈ settled) then Some outcome else None).
Proof. intros Hi. unfold slots. by rewrite list_lookup_imap, Hi. Qed.

Lemma slots_lookup_None promises settled i :
  promises !! i = None -> slots promises settled !! i = None.
Proof. intros Hi. unfold slots. by rewrite list_lookup_imap, Hi. Qed.

Lemma slots_length promises settled :
  length (slots promises settled) = length promises.
Proof. unfold slots. apply length_imap. Qed.

Lemma slots_nil promises :
  slots promises [] = replicate (length promises) None.
Proof.
  apply list_eq; intros i.
  destruct (promises !! i) as [o|] eqn:Hi.
  - rewrite (slots_lookup_Some _ _ _ _ Hi).
    rewrite bool_decide_eq_false_2 by (apply not_elem_of_nil).
    symmetry. apply lookup_replicate_2. by eapply lookup_lt_Some.
  - rewrite (slots_lookup_None _ _ _ Hi).
    symmetry. apply lookup_ge_None. rewrite length_replicate.
    by apply lookup_ge_None.
Qed.

Lemma slots_all promises settled :
  (forall i, i < length promises -> i ∈ settled) ->
  slots promises settled = Some <$> promises.
Proof.
  intros Hall. apply list_eq; intros i.
  rewrite list_lookup_fmap.
  destruct (promises !! i) as [o|] eqn:Hi.
  - rewrite (slots_lookup_Some _ _ _ _ Hi).
    rewrite bool_decide_eq_true_2; [done|].
    apply Hall. by eapply lookup_lt_Some.
  - by rewrite (slots_lookup_None _ _ _ Hi).
Qed.

Lemma allSettled_element_slots promises settled r i :
  i ∉ settled -> i < length promises ->
  allSettled_element promises
    {| values := slots promises settled; remainingElementsCount := r |} i =
  {| values := slots promises (settled ++ [i]);
     remainingElementsCount := pred r |}.
Proof.
  intros Hnew Hlt. unfold allSettled_element.
  destruct (lookup_lt_is_Some_2 promises i Hlt) as [o Ho].
  cbn [values remainingElementsCount].
  rewrite Ho, (slots_lookup_Some _ _ _ _ Ho).
  rewrite bool_decide_eq_false_2 by done.
  f_equal. apply list_eq; intros j.
  destruct (decide (i = j)) as [<-|Hne].
  - rewrite list_lookup_insert_eq by (by rewrite slots_length).
    rewrite (slots_lookup_Some _ _ _ _ Ho).
    rewrite bool_decide_eq_true_2; [done|].
    apply elem_of_app. right. by apply list_elem_of_singleton.
  - rewrite list_lookup_insert_ne by done.
    destruct (promises !! j) as [oj|] eqn:Hj.
    + rewrite !(slots_lookup_Some _ _ _ _ Hj).
      destruct (decide (j ∈ settled)) as [Hin|Hnin].
      * rewrite !bool_decide_eq_true_2; [done| |done].
        apply elem_of_app. by left.
      * rewrite !bool_decide_eq_false_2; [done| |done].
        intros [?|Hj']%elem_of_app; [done|].
        apply list_elem_of_singleton in Hj'. congruence.
    + by rewrite !(slots_lookup_None _ _ _ Hj).
Qed.

Lemma allSettled_foldl promises arrival : forall settled r,
  NoDup (settled ++ arrival) ->
  (forall i, i ∈ arrival -> i < length promises) ->
  foldl (allSettled_element promises)
    {| values := slots promises settled; remainingElementsCount := r |} arrival =
  {| values := slots promises (settled ++ arrival);
     remainingElementsCount := r - length arrival |}.
Proof.
  induction arrival as [|i arrival IH]; intros settled r Hnd Hlt; simpl.
  - rewrite app_nil_r. f_equal. lia.
  - rewrite allSettled_element_slots.
    + rewrite IH.
      * rewrite <- app_assoc. simpl. f_equal. lia.
      * by rewrite <- app_assoc.
      * intros j Hj. apply Hlt. set_solver.
    + apply NoDup_app in Hnd as (_ & Hdisj & _).
      intros Hin. apply (Hdisj _ Hin). set_solver.
    + apply Hlt. set_solver.
Qed.

Lemma omap_id_Some (l : list (Settled A)) : omap id (Some <$> l) = l.
Proof. induction l as [|x l IH]; [done|]. cbn. by f_equal. Qed.

(** When every promise settles, in whatever order, the combined promise is
    resolved with the outcomes in the order of the input array. *)
Lemma allSettled_input_order promises arrival :
  arrival ≡ₚ seq 0 (length promises) ->
  allSettled promises arrival = Some promises.
Proof.
  intros Hperm. unfold allSettled, allSettled_start.
  rewrite <- slots_nil, allSettled_foldl.
  - cbn [remainingElementsCount values app].
    replace (length arrival) with (length promises)
      by (by rewrite Hperm, length_seq).
    rewrite Nat.sub_diag. cbn [Nat.eqb].
    rewrite slots_all, omap_id_Some; [done|].
    intros i Hi. rewrite Hperm. apply elem_of_seq. lia.
  - simpl. rewrite Hperm. apply NoDup_seq.
  - intros i Hi. rewrite Hperm in Hi. apply elem_of_seq in Hi. lia.
Qed.

End AllSettledFacts.

(** ** The effect monad *)

Section EffectFacts.
Import Js.
Context {E : Type}.

Lemma trace_bind_normal {A B} (m : M E A) (k : A -> M E B) tr a :
  m = (tr, Normal a) -> trace (m ≫= k) = tr ++ trace (k a).
Proof.
  intros ->. unfold mbind, M_bind, bind, trace.
  by destruct (k a).
Qed.

Lemma trace_bind_throw {A B} (m : M E A) (k : A -> M E B) tr e :
  m = (tr, Throw e) -> m ≫= k = (tr, Throw e).
Proof. by intros ->. Qed.

Lemma bind_ret_l {A B} (a : A) (k : A -> M E B) : mret a ≫= k = k a.
Proof. unfold mbind, M_bind, bind, mret, M_ret, ret. by destruct (k a). Qed.

(** Mapping a function that emits nothing emits nothing. *)
Lemma array_map_lift_silent {A B} (f : A -> Completion B) (l : list A) :
  fst (array_map (fun x => lift (E:=E) (f x)) l) = [].
Proof.
  induction l as [|x l IH]; [done|].
  cbn [array_map].
  destruct (array_map _ l) as [tr [ys|e]]; simpl in IH; subst tr;
    unfold mbind, M_bind, bind, lift; by destruct (f x).
Qed.

(** One throwing element makes the whole [map] throw. *)
Lemma array_map_lift_throw {A B} (f : A -> Completion B) (l : list A) x e :
  x ∈ l -> f x = Throw e ->
  exists e', array_map (fun x => lift (E:=E) (f x)) l = ([], Throw e').
Proof.
  intros Hin Hx. induction l as [|y l IH]; [by apply elem_of_nil in Hin|].
  cbn [array_map].
  destruct (f y) as [b|e0] eqn:Hy; [|by eexists].
  apply elem_of_cons in Hin as [->|Hin]; [congruence|].
  destruct (IH Hin) as [e' ->]. by eexists.
Qed.

(** When every element is accepted, [map] returns the images, in order. *)
Lemma array_map_lift_normal {A B} (f : A -> Completion B) (l : list A) (l' : list B) :
  Forall2 (fun x y => f x = Normal y) l l' ->
  array_map (fun x => lift (E:=E) (f x)) l = ([], Normal l').
Proof.
  induction 1 as [|x y l l' Hxy _ IH]; [done|].
  cbn [array_map]. by rewrite Hxy, IH.
Qed.

End EffectFacts.

(** ** Events of the anchoring client *)

Section TraceFacts.
Import Js Anchoring.

Lemma outcomes_no_requests tr :
  Forall (fun ev => is_outcome ev = true) tr -> requests tr = [].
Proof.
  induction 1 as [|ev tr Hev _ IH]; [done|].
  unfold requests in *. cbn. rewrite IH. by destruct ev.
Qed.

Lemma outcomes_no_delegations tr :
  Forall (fun ev => is_outcome ev = true) tr -> delegations tr = [].
Proof.
  induction 1 as [|ev tr Hev _ IH]; [done|].
  unfold delegations in *. cbn. rewrite IH. by destruct ev.
Qed.

Lemma callbacks_fetch (urls : list string) : callbacks (Fetch <$> urls) = [].
Proof. by induction urls. Qed.

Lemma callbacks_put (urls : list string) body :
  callbacks ((fun url => DoPut url body) <$> urls) = [].
Proof. by induction urls. Qed.

Lemma delegations_fetch (urls : list string) : delegations (Fetch <$> urls) = [].
Proof. by induction urls. Qed.

Lemma delegations_put (urls : list string) body :
  delegations ((fun url => DoPut url body) <$> urls) = [].
Proof. by induction urls. Qed.

Lemma requests_put (urls : list string) body :
  requests ((fun url => DoPut url body) <$> urls) =
  (fun url => DoPut url body) <$> urls.
Proof. induction urls as [|u urls IH]; [done|]. cbn. by f_equal. Qed.

Lemma find_fulfilled_None {A} (responses : list (Settled A)) :
  find_fulfilled responses = None <->
  Forall (fun r => is_rejected r = true) responses.
Proof.
  induction responses as [|[v|e] responses IH]; cbn.
  - split; [constructor | done].
  - split; [done|]. by intros [? _]%Forall_cons.
  - rewrite IH. split; [by constructor | by intros [_ ?]%Forall_cons].
Qed.

Lemma find_fulfilled_elem {A} (responses : list (Settled A)) value :
  find_fulfilled responses = Some value -> Fulfilled value ∈ responses.
Proof.
  induction responses as [|[v|e] responses IH]; cbn; [done| |].
  - intros [= ->]. apply elem_of_cons. by left.
  - intros Hf. apply elem_of_cons. right. by apply IH.
Qed.

Lemma find_fulfilled_is_Some {A} (responses : list (Settled A)) value :
  Fulfilled value ∈ responses -> is_Some (find_fulfilled responses).
Proof.
  intros Hin. destruct (find_fulfilled responses) eqn:Hf; [by eexists|].
  apply find_fulfilled_None in Hf.
  by apply (proj1 (Forall_forall _ _) Hf) in Hin.
Qed.

(** With no fulfilled element, the first rejected one is the head. *)
Lemma find_rejected_head {A} (responses : list (Settled A)) r :
  find_fulfilled (r :: responses) = None ->
  exists reason, r = Rejected reason /\
    find_rejected (r :: responses) = Some reason.
Proof. destruct r as [v|reason]; cbn; [done|]. by exists reason. Qed.

End TraceFacts.

(** ** The read path *)

Section VersionsFacts.
Import Js Anchoring.
Variables (VAULT VAULT_TYPE : string) (config : gmap string string).
Variable getAnchoringServices : option string -> JsError + list string.
Variable keyssi_parse : string -> Completion KeySSI.
Variable fetch : nat -> string -> Settled Response.

Local Abbreviation versions :=
  (Anchoring.versions VAULT VAULT_TYPE config getAnchoringServices keyssi_parse fetch).
Local Abbreviation bypass := (Anchoring.bypass VAULT VAULT_TYPE config).
Local Abbreviation decode := (versions_decode keyssi_parse).

(** Decoding never throws into the enclosing reaction: what goes wrong
    inside stays in the dropped promise. *)
Lemma versions_decode_normal callback value :
  exists tr, decode callback value = (tr, Normal tt).
Proof.
  unfold versions_decode, then_.
  destruct (json value) as [hlStrings|e]; [|by eexists].
  match goal with
  | |- context [match ?m with pair _ _ => _ end] => destruct m as [tr [[]|e]]
  end; eexists; unfold mbind, M_bind, bind; cbn; reflexivity.
Qed.

(** After the locator answered with a non-empty list, the call issues one
    request per endpoint and hands the promises to the aggregation. *)
Lemma versions_network arrival keySSI authToken callback services :
  bypass (getDLDomain keySSI) = false ->
  getAnchoringServices (getDLDomain keySSI) = inr services ->
  services <> [] ->
  trace (versions arrival keySSI authToken callback) =
  GetAnchoringServices (getDLDomain keySSI) ::
  (Fetch <$> (versions_url (getAnchorId keySSI) <$> services)) ++
  trace (versions_aggregate keyssi_parse arrival
           (shifted_callback authToken callback)
           (imap fetch (versions_url (getAnchorId keySSI) <$> services))).
Proof.
  intros Hby Hloc Hne. unfold Anchoring.versions. rewrite Hby, Hloc.
  destruct services as [|s services]; [done|].
  cbn [length Nat.eqb]. cbv iota.
  erewrite trace_bind_normal; [|reflexivity].
  cbn [app]. f_equal.
  erewrite trace_bind_normal; [|reflexivity].
  reflexivity.
Qed.

(** Once all queries have settled, the aggregation decodes the first
    fulfilled response of the array. *)
Lemma versions_aggregate_fulfilled arrival callback queries value :
  arrival ≡ₚ seq 0 (length queries) ->
  find_fulfilled queries = Some value ->
  trace (versions_aggregate keyssi_parse arrival callback queries) =
  trace (decode callback value).
Proof.
  intros Hperm Hfind. unfold versions_aggregate.
  rewrite (allSettled_input_order _ _ Hperm).
  unfold then_ at 1. unfold versions_settled. rewrite Hfind.
  destruct (versions_decode_normal callback value) as [tr Hdec].
  rewrite bind_ret_l, Hdec. cbn. by rewrite app_nil_r.
Qed.

(** With no fulfilled response, reading [response.value] throws and the
    [catch] reports it. *)
Lemma versions_aggregate_rejected arrival callback queries :
  arrival ≡ₚ seq 0 (length queries) ->
  find_fulfilled queries = None ->
  trace (versions_aggregate keyssi_parse arrival callback queries) =
  [CallbackErr callback (ErrTypeError "response.value")].
Proof.
  intros Hperm Hfind. unfold versions_aggregate.
  rewrite (allSettled_input_order _ _ Hperm).
  unfold then_ at 1. unfold versions_settled. by rewrite Hfind.
Qed.

Lemma callbacks_versions_network arrival keySSI authToken callback services :
  bypass (getDLDomain keySSI) = false ->
  getAnchoringServices (getDLDomain keySSI) = inr services ->
  services <> [] ->
  callbacks (trace (versions arrival keySSI authToken callback)) =
  callbacks (trace (versions_aggregate keyssi_parse arrival
           (shifted_callback authToken callback)
           (imap fetch (versions_url (getAnchorId keySSI) <$> services)))).
Proof.
  intros Hby Hloc Hne. rewrite (versions_network _ _ _ _ _ Hby Hloc Hne).
  unfold callbacks. cbn [List.filter is_callback].
  rewrite List.filter_app. fold (callbacks (Fetch <$> (versions_url (getAnchorId keySSI) <$> services))).
  by rewrite callbacks_fetch.
Qed.

(** What decoding does, case by case. *)
Lemma versions_decode_json_rejected callback value e :
  json value = Rejected e ->
  trace (decode callback value) = [UnhandledRejection e].
Proof. intros Hj. unfold versions_decode, then_. by rewrite Hj. Qed.

Lemma versions_decode_parse_throws callback value l s e :
  json value = Fulfilled (HlArray l) -> s ∈ l -> keyssi_parse s = Throw e ->
  exists e', trace (decode callback value) = [UnhandledRejection e'].
Proof.
  intros Hj Hin Hs. unfold versions_decode, then_. rewrite Hj.
  destruct (array_map_lift_throw (E:=Event) keyssi_parse l s e Hin Hs) as [e' ->].
  by exists e'.
Qed.

Lemma versions_decode_chain callback value l hashLinks :
  json value = Fulfilled (HlArray l) ->
  Forall2 (fun hlString ssi => keyssi_parse hlString = Normal ssi) l hashLinks ->
  trace (decode callback value) = [CallbackOk callback (HashLinks hashLinks)].
Proof.
  intros Hj Hall. unfold versions_decode, then_. rewrite Hj.
  by rewrite (array_map_lift_normal (E:=Event) keyssi_parse l hashLinks Hall).
Qed.

(** C1 (as amended): on the network path with a non-empty endpoint list,
    once every request has settled, the response that [versions] decodes
    is the first fulfilled one in the order of the endpoint list, whatever
    the order in which the requests settled; when its body is an array of
    well-formed identifiers, the callback receives that chain. *)
Theorem versions_selects_first_fulfilled_in_list_order
    arrival keySSI authToken callback services value :
  bypass (getDLDomain keySSI) = false ->
  getAnchoringServices (getDLDomain keySSI) = inr services ->
  services <> [] ->
  arrival ≡ₚ seq 0 (length services) ->
  find_fulfilled (imap fetch (versions_url (getAnchorId keySSI) <$> services))
    = Some value ->
  trace (versions arrival keySSI authToken callback) =
    GetAnchoringServices (getDLDomain keySSI) ::
    (Fetch <$> (versions_url (getAnchorId keySSI) <$> services)) ++
    trace (decode (shifted_callback authToken callback) value) /\
  forall l hashLinks,
    json value = Fulfilled (HlArray l) ->
    Forall2 (fun hlString ssi => keyssi_parse hlString = Normal ssi) l hashLinks ->
    callbacks (trace (versions arrival keySSI authToken callback)) =
    [CallbackOk (shifted_callback authToken callback) (HashLinks hashLinks)].
Proof.
  intros Hby Hloc Hne Hperm Hfind.
  assert (Hagg : trace (versions_aggregate keyssi_parse arrival
             (shifted_callback authToken callback)
             (imap fetch (versions_url (getAnchorId keySSI) <$> services))) =
           trace (decode (shifted_callback authToken callback) value)).
  { apply versions_aggregate_fulfilled; [|done].
    by rewrite length_imap, length_fmap. }
  split.
  - by rewrite (versions_network _ _ _ _ _ Hby Hloc Hne), Hagg.
  - intros l hashLinks Hj Hall.
    rewrite (callbacks_versions_network _ _ _ _ _ Hby Hloc Hne), Hagg.
    by rewrite (versions_decode_chain _ _ _ _ Hj Hall).
Qed.

(** C5 (as amended): on the network path, when every request has settled
    and every one is rejected, the callback is invoked once, with an
    error, and never with a version chain. *)
Theorem versions_all_rejected_fails arrival keySSI authToken callback services :
  bypass (getDLDomain keySSI) = false ->
  getAnchoringServices (getDLDomain keySSI) = inr services ->
  services <> [] ->
  arrival ≡ₚ seq 0 (length services) ->
  (forall i service, services !! i = Some service ->
     is_rejected (fetch i (versions_url (getAnchorId keySSI) service)) = true) ->
  callbacks (trace (versions arrival keySSI authToken callback)) =
    [CallbackErr (shifted_callback authToken callback)
       (ErrTypeError "response.value")] /\
  forall cb chain,
    CallbackOk cb chain ∉ trace (versions arrival keySSI authToken callback).
Proof.
  intros Hby Hloc Hne Hperm Hrej.
  assert (Hcb : callbacks (trace (versions arrival keySSI authToken callback)) =
    [CallbackErr (shifted_callback authToken callback)
       (ErrTypeError "response.value")]).
  { rewrite (callbacks_versions_network _ _ _ _ _ Hby Hloc Hne).
    rewrite versions_aggregate_rejected; [done| |].
    - by rewrite length_imap, length_fmap.
    - apply find_fulfilled_None, Forall_lookup. intros i q Hq.
      rewrite list_lookup_imap, list_lookup_fmap in Hq.
      destruct (services !! i) as [service|] eqn:Hs; [|done].
      injection Hq as <-. by eapply Hrej. }
  split; [done|].
  intros cb chain Hin.
  assert (Hin' : CallbackOk cb chain ∈
            callbacks (trace (versions arrival keySSI authToken callback))).
  { unfold callbacks. apply list_elem_of_In, List.filter_In.
    split; [by apply list_elem_of_In | done]. }
  rewrite Hcb in Hin'. apply list_elem_of_singleton in Hin'. done.
Qed.

(** C10: on the network path, when the first fulfilled response cannot be
    decoded (its body is not JSON, or one of its strings is not an
    identifier), the callback is not invoked at all. *)
Theorem versions_undecodable_never_calls_back
    arrival keySSI authToken callback services value :
  bypass (getDLDomain keySSI) = false ->
  getAnchoringServices (getDLDomain keySSI) = inr services ->
  services <> [] ->
  arrival ≡ₚ seq 0 (length services) ->
  find_fulfilled (imap fetch (versions_url (getAnchorId keySSI) <$> services))
    = Some value ->
  (exists e, json value = Rejected e) \/
  (exists l hlString e,
     json value = Fulfilled (HlArray l) /\ hlString ∈ l /\
     keyssi_parse hlString = Throw e) ->
  callbacks (trace (versions arrival keySSI authToken callback)) = [].
Proof.
  intros Hby Hloc Hne Hperm Hfind Hbad.
  rewrite (callbacks_versions_network _ _ _ _ _ Hby Hloc Hne).
  rewrite (versions_aggregate_fulfilled _ _ _ value);
    [|by rewrite length_imap, length_fmap|done].
  destruct Hbad as [[e Hj]|(l & s & e & Hj & Hin & Hs)].
  - by rewrite (versions_decode_json_rejected _ _ _ Hj).
  - destruct (versions_decode_parse_throws
                (shifted_callback authToken callback) _ _ _ _ Hj Hin Hs)
      as [e' ->].
    done.
Qed.

End VersionsFacts.

(** ** The write path *)

Section AddVersionFacts.
Import Js Anchoring.
Variables (VAULT VAULT_TYPE : string) (config : gmap string string).
Variable getAnchoringServices : option string -> JsError + list string.
Variable doPut : nat -> string -> string -> PutResult.

Local Abbreviation addVersion :=
  (Anchoring.addVersion VAULT VAULT_TYPE config getAnchoringServices doPut).
Local Abbreviation bypass := (Anchoring.bypass VAULT VAULT_TYPE config).
Local Abbreviation queries_of := (addVersion_queries doPut).

Lemma addVersion_network arrival keySSI newSSI lastSSI zkp proof callback services :
  bypass (getDLDomain keySSI) = false ->
  getAnchoringServices (getDLDomain keySSI) = inr services ->
  services <> [] ->
  let body := addVersion_body newSSI (shifted_value lastSSI) (shifted_value zkp) proof in
  let urls := add_url (getAnchorId keySSI) <$> services in
  trace (addVersion arrival keySSI newSSI lastSSI zkp proof callback) =
  GetAnchoringServices (getDLDomain keySSI) ::
  ((fun url => DoPut url (JSON_stringify body)) <$> urls) ++
  trace (addVersion_aggregate arrival
           (shifted_callback zkp (shifted_callback lastSSI callback))
           (queries_of urls body)).
Proof.
  intros Hby Hloc Hne body urls. unfold Anchoring.addVersion.
  rewrite Hby, Hloc.
  destruct services as [|s services]; [done|].
  cbn [length Nat.eqb]. cbv iota.
  erewrite trace_bind_normal; [|reflexivity].
  cbn [app]. f_equal.
  erewrite trace_bind_normal; [|reflexivity].
  reflexivity.
Qed.

Lemma addVersion_aggregate_fulfilled arrival callback queries value :
  arrival ≡ₚ seq 0 (length queries) ->
  find_fulfilled queries = Some value ->
  trace (addVersion_aggregate arrival callback queries) =
  [CallbackOk callback (Data value)].
Proof.
  intros Hperm Hfind. unfold addVersion_aggregate.
  rewrite (allSettled_input_order _ _ Hperm).
  unfold then_, addVersion_settled. by rewrite Hfind.
Qed.

Lemma addVersion_aggregate_rejected arrival callback queries reason :
  arrival ≡ₚ seq 0 (length queries) ->
  find_fulfilled queries = None ->
  find_rejected queries = Some reason ->
  trace (addVersion_aggregate arrival callback queries) =
  [CallbackErr callback reason].
Proof.
  intros Hperm Hfind Hrej. unfold addVersion_aggregate.
  rewrite (allSettled_input_order _ _ Hperm).
  unfold then_, addVersion_settled. by rewrite Hfind, Hrej.
Qed.

Lemma addVersion_aggregate_outcomes arrival callback queries :
  Forall (fun ev => is_outcome ev = true)
    (trace (addVersion_aggregate arrival callback queries)).
Proof.
  unfold addVersion_aggregate.
  destruct (allSettled queries arrival) as [responses|]; [|constructor].
  unfold then_, addVersion_settled.
  destruct (find_fulfilled responses); [by repeat constructor|].
  destruct (find_rejected responses); by repeat constructor.
Qed.

Lemma queries_of_length urls body : length (queries_of urls body) = length urls.
Proof. unfold addVersion_queries. apply length_imap. Qed.

Lemma queries_of_lookup urls body i q :
  queries_of urls body !! i = Some q ->
  exists url, urls !! i = Some url /\
    q = put_query (doPut i url (JSON_stringify body)).
Proof.
  unfold addVersion_queries. rewrite list_lookup_imap.
  destruct (urls !! i) as [url|]; [|done].
  intros [= <-]. by exists url.
Qed.

Lemma callbacks_addVersion_network
    arrival keySSI newSSI lastSSI zkp proof callback services :
  bypass (getDLDomain keySSI) = false ->
  getAnchoringServices (getDLDomain keySSI) = inr services ->
  services <> [] ->
  callbacks (trace (addVersion arrival keySSI newSSI lastSSI zkp proof callback)) =
  callbacks (trace (addVersion_aggregate arrival
     (shifted_callback zkp (shifted_callback lastSSI callback))
     (queries_of (add_url (getAnchorId keySSI) <$> services)
        (addVersion_body newSSI (shifted_value lastSSI) (shifted_value zkp) proof)))).
Proof.
  intros Hby Hloc Hne.
  rewrite (addVersion_network _ _ _ _ _ _ _ _ Hby Hloc Hne).
  unfold callbacks. cbn [List.filter is_callback].
  rewrite List.filter_app.
  change (List.filter is_callback ?l) with (callbacks l) at 1.
  by rewrite callbacks_put.
Qed.

(** What the aggregation makes of the settled promises. *)
Lemma addVersion_outcome_of_queries
    arrival keySSI newSSI lastSSI zkp proof callback services :
  bypass (getDLDomain keySSI) = false ->
  getAnchoringServices (getDLDomain keySSI) = inr services ->
  services <> [] ->
  arrival ≡ₚ seq 0 (length services) ->
  let cb := shifted_callback zkp (shifted_callback lastSSI callback) in
  let queries :=
    queries_of (add_url (getAnchorId keySSI) <$> services)
      (addVersion_body newSSI (shifted_value lastSSI) (shifted_value zkp) proof) in
  let result :=
    callbacks (trace (addVersion arrival keySSI newSSI lastSSI zkp proof callback)) in
  ((exists data, Fulfilled data ∈ queries) ->
     exists data, Fulfilled data ∈ queries /\ result = [CallbackOk cb (Data data)]) /\
  (Forall (fun q => is_rejected q = true) queries <->
     exists reason, result = [CallbackErr cb reason]) /\
  (forall reason, result = [CallbackErr cb reason] -> Rejected reason ∈ queries).
Proof.
  intros Hby Hloc Hne Hperm cb queries result.
  assert (Hlen : arrival ≡ₚ seq 0 (length queries)).
  { unfold queries. by rewrite queries_of_length, length_fmap. }
  assert (Hres : result = callbacks (trace (addVersion_aggregate arrival cb queries))).
  { unfold result. by rewrite (callbacks_addVersion_network _ _ _ _ _ _ _ _ Hby Hloc Hne). }
  assert (Hq : queries <> []).
  { intros Hnil. apply (f_equal length) in Hnil.
    unfold queries in Hnil. rewrite queries_of_length, length_fmap in Hnil.
    by destruct services. }
  destruct (find_fulfilled queries) as [value|] eqn:Hfind.
  - rewrite (addVersion_aggregate_fulfilled _ _ _ _ Hlen Hfind) in Hres.
    cbn in Hres. repeat split.
    + intros _. exists value. split; [by apply find_fulfilled_elem|done].
    + intros Hall. apply find_fulfilled_None in Hall. congruence.
    + intros [reason Hr]. congruence.
    + intros reason Hr. congruence.
  - destruct queries as [|q queries'] eqn:Hqs; [done|].
    destruct (find_rejected_head _ _ Hfind) as (reason & -> & Hrej).
    rewrite (addVersion_aggregate_rejected _ _ _ _ Hlen Hfind Hrej) in Hres.
    cbn in Hres. repeat split.
    + intros [data Hin]. apply find_fulfilled_is_Some in Hin.
      rewrite Hfind in Hin. by destruct Hin.
    + intros _. by exists reason.
    + intros _. by apply find_fulfilled_None.
    + intros reason' Hr. rewrite Hres in Hr. injection Hr as <-.
      apply elem_of_cons. by left.
Qed.

Lemma queries_of_services body anchorId services i service :
  services !! i = Some service ->
  queries_of (add_url anchorId <$> services) body !! i =
  Some (put_query (doPut i (service +:+ "/anchor/add/" +:+ anchorId)
                         (JSON_stringify body))).
Proof.
  intros Hs. unfold addVersion_queries.
  by rewrite list_lookup_imap, list_lookup_fmap, Hs.
Qed.

Lemma queries_of_services_inv body anchorId services i q :
  queries_of (add_url anchorId <$> services) body !! i = Some q ->
  exists service,
    services !! i = Some service /\
    q = put_query (doPut i (service +:+ "/anchor/add/" +:+ anchorId)
                         (JSON_stringify body)).
Proof.
  unfold addVersion_queries. rewrite list_lookup_imap, list_lookup_fmap.
  destruct (services !! i) as [service|]; [|done].
  intros [= <-]. by exists service.
Qed.

(** C3 (as amended): on the network path, once every endpoint's request
    has settled: when some endpoint accepted, the call succeeds and the
    callback receives the response body that [doPut] got from an endpoint
    that accepted, even when every other endpoint rejected; the call
    fails exactly when every endpoint rejected, and the error is then the
    reason built from the [doPut] error of one of them. *)
Theorem addVersion_succeeds_iff_some_endpoint_accepts
    arrival keySSI newSSI lastSSI zkp proof callback services :
  bypass (getDLDomain keySSI) = false ->
  getAnchoringServices (getDLDomain keySSI) = inr services ->
  services <> [] ->
  arrival ≡ₚ seq 0 (length services) ->
  let cb :=
    match zkp with
    | ArgFunction f => f
    | _ => match lastSSI with ArgFunction f => f | _ => callback end
    end in
  let answer i service :=
    doPut i (service +:+ "/anchor/add/" +:+ getAnchorId keySSI)
      (JSON_stringify
         (addVersion_body newSSI (shifted_value lastSSI) (shifted_value zkp) proof)) in
  let result :=
    callbacks (trace (addVersion arrival keySSI newSSI lastSSI zkp proof callback)) in
  ((exists i service data,
      services !! i = Some service /\ answer i service = PutData data) ->
   exists i service data,
     services !! i = Some service /\ answer i service = PutData data /\
     result = [CallbackOk cb (Data data)]) /\
  ((forall i service, services !! i = Some service ->
      exists err, answer i service = PutError err) <->
   exists reason, result = [CallbackErr cb reason]) /\
  (forall reason, result = [CallbackErr cb reason] ->
   exists i service err msg,
     services !! i = Some service /\ answer i service = PutError err /\
     reason = ErrObject (statusCode err) (Some msg)).
Proof.
  intros Hby Hloc Hne Hperm cb answer result.
  assert (Hcb : cb = shifted_callback zkp (shifted_callback lastSSI callback)).
  { unfold cb. by destruct zkp, lastSSI. }
  destruct (addVersion_outcome_of_queries arrival keySSI newSSI lastSSI zkp
              proof callback services Hby Hloc Hne Hperm) as (Hok & Hiff & Hreason).
  cbv zeta in Hok, Hiff, Hreason. rewrite <- Hcb in Hok, Hiff, Hreason.
  fold result in Hok, Hiff, Hreason.
  set (body := addVersion_body newSSI (shifted_value lastSSI)
                 (shifted_value zkp) proof) in *.
  split; [|split].
  - intros (i & service & data & Hs & Hput).
    destruct Hok as (data' & Hin & Hres).
    { exists data. apply list_elem_of_lookup. exists i.
      rewrite (queries_of_services body _ _ _ _ Hs).
      unfold answer in Hput. fold body in Hput. by rewrite Hput. }
    apply list_elem_of_lookup in Hin as [j Hj].
    apply queries_of_services_inv in Hj as (service' & Hs' & Hq).
    exists j, service', data'. split; [done|]. split; [|done].
    unfold answer. fold body.
    destruct (doPut j _ _) as [err|d]; [done|]. by injection Hq as ->.
  - rewrite <- Hiff. split.
    + intros Hall. apply Forall_lookup. intros i q Hq.
      apply queries_of_services_inv in Hq as (service & Hs & ->).
      destruct (Hall i service Hs) as [err Herr].
      unfold answer in Herr. fold body in Herr. by rewrite Herr.
    + intros Hall i service Hs.
      pose proof (queries_of_services body (getAnchorId keySSI) _ _ _ Hs) as Hq.
      apply (proj1 (Forall_lookup _ _) Hall) in Hq.
      unfold answer. fold body.
      destruct (doPut i _ _) as [err|d]; [by exists err|done].
  - intros reason Hres. apply Hreason in Hres.
    apply list_elem_of_lookup in Hres as [j Hj].
    apply queries_of_services_inv in Hj as (service & Hs & Hq).
    unfold answer. fold body.
    destruct (doPut j _ _) as [err|d] eqn:Hput; [|done].
    cbn in Hq. injection Hq as ->.
    exists j, service, err. eexists. split; [done|].
    split; [exact Hput|reflexivity].
Qed.

(** C2 (as amended): on the network path, when every endpoint rejected,
    the reason handed to the callback stems from an actual [doPut] error
    and carries its status code; its message is the conflict message when
    the status code is 428, otherwise the original message when that is a
    non-empty string, and the text Error when the original message is
    missing or empty.  A conflict is told apart from every other failure. *)
Theorem addVersion_rejection_message
    arrival keySSI newSSI lastSSI zkp proof callback services :
  bypass (getDLDomain keySSI) = false ->
  getAnchoringServices (getDLDomain keySSI) = inr services ->
  services <> [] ->
  arrival ≡ₚ seq 0 (length services) ->
  let cb := shifted_callback zkp (shifted_callback lastSSI callback) in
  let body :=
    addVersion_body newSSI (shifted_value lastSSI) (shifted_value zkp) proof in
  Forall (fun q => is_rejected q = true)
    (queries_of (add_url (getAnchorId keySSI) <$> services) body) ->
  exists i service err msg,
    services !! i = Some service /\
    doPut i (add_url (getAnchorId keySSI) service) (JSON_stringify body)
      = PutError err /\
    callbacks (trace (addVersion arrival keySSI newSSI lastSSI zkp proof callback))
      = [CallbackErr cb (ErrObject (statusCode err) (Some msg))] /\
    (statusCode err = Some 428%Z ->
       msg = "Unable to add alias: versions out of sync") /\
    (statusCode err <> Some 428%Z -> truthy_string (message err) = true ->
       message err = Some msg) /\
    (statusCode err <> Some 428%Z -> truthy_string (message err) = false ->
       msg = "Error") /\
    (forall err', statusCode err = Some 428%Z -> statusCode err' <> Some 428%Z ->
       put_query (PutError err') <> Rejected (ErrObject (statusCode err) (Some msg))).
Proof.
  intros Hby Hloc Hne Hperm cb body Hall.
  destruct services as [|service services'] eqn:Hs; [done|].
  destruct (doPut 0 (add_url (getAnchorId keySSI) service) (JSON_stringify body))
    as [err|data] eqn:Hput.
  2:{ apply Forall_cons in Hall as [Hhd _]. cbn in Hhd.
      fold body in Hhd. by rewrite Hput in Hhd. }
  set (msg := if bool_decide (statusCode err = Some 428%Z)
              then "Unable to add alias: versions out of sync"
              else or_default (message err) "Error").
  exists 0, service, err, msg. split; [done|]. split; [done|]. split.
  - rewrite (callbacks_addVersion_network _ _ _ _ _ _ _ _ Hby Hloc Hne).
    fold body cb.
    rewrite (addVersion_aggregate_rejected _ _ _
               (ErrObject (statusCode err) (Some msg))); [done| | |].
    + by rewrite queries_of_length, length_fmap.
    + by apply find_fulfilled_None.
    + cbn. by rewrite Hput.
  - unfold msg. repeat split.
    + intros H428. by rewrite bool_decide_eq_true_2.
    + intros Hn Ht. rewrite bool_decide_eq_false_2 by done.
      unfold or_default. destruct (message err); [by rewrite Ht|done].
    + intros Hn Ht. rewrite bool_decide_eq_false_2 by done.
      unfold or_default. destruct (message err); [by rewrite Ht|done].
    + intros err' H428 Hn. cbn. intros [= Hsc _]. congruence.
Qed.

(** C9: on the network path, when every endpoint rejected, the reason
    handed to the callback is the one of the first endpoint of the
    locator's list, and the whole trace is the same for every order in
    which the requests settle. *)
Theorem addVersion_failure_reason_is_first_endpoint
    arrival arrival' keySSI newSSI lastSSI zkp proof callback services :
  bypass (getDLDomain keySSI) = false ->
  getAnchoringServices (getDLDomain keySSI) = inr services ->
  services <> [] ->
  arrival ≡ₚ seq 0 (length services) ->
  arrival' ≡ₚ seq 0 (length services) ->
  let cb := shifted_callback zkp (shifted_callback lastSSI callback) in
  let body :=
    addVersion_body newSSI (shifted_value lastSSI) (shifted_value zkp) proof in
  Forall (fun q => is_rejected q = true)
    (queries_of (add_url (getAnchorId keySSI) <$> services) body) ->
  exists service reason,
    head services = Some service /\
    put_query (doPut 0 (add_url (getAnchorId keySSI) service) (JSON_stringify body))
      = Rejected reason /\
    callbacks (trace (addVersion arrival keySSI newSSI lastSSI zkp proof callback))
      = [CallbackErr cb reason] /\
    trace (addVersion arrival keySSI newSSI lastSSI zkp proof callback) =
    trace (addVersion arrival' keySSI newSSI lastSSI zkp proof callback).
Proof.
  intros Hby Hloc Hne Hperm Hperm' cb body Hall.
  destruct services as [|service services'] eqn:Hs; [done|].
  pose proof (proj2 (find_fulfilled_None _) Hall) as Hnone.
  destruct (find_rejected_head _ _ Hnone) as (reason & Hq & Hrej).
  exists service, reason. split; [done|]. split; [exact Hq|].
  assert (Hagg : forall arr, arr ≡ₚ seq 0 (length (service :: services')) ->
    trace (addVersion_aggregate arr cb
      (queries_of (add_url (getAnchorId keySSI) <$> service :: services') body)) =
    [CallbackErr cb reason]).
  { intros arr Harr. apply addVersion_aggregate_rejected; [|done|done].
    by rewrite queries_of_length, length_fmap. }
  split.
  - rewrite (callbacks_addVersion_network _ _ _ _ _ _ _ _ Hby Hloc Hne).
    fold body cb. by rewrite (Hagg _ Hperm).
  - rewrite !(addVersion_network _ _ _ _ _ _ _ _ Hby Hloc Hne).
    cbv zeta. fold body cb. by rewrite (Hagg _ Hperm), (Hagg _ Hperm').
Qed.

(** C7: on the network path, the requests of a write are one PUT per
    endpoint, to [{endpoint}/anchor/add/{anchorId}], all with the
    serialization of one and the same body; in it [hash.last] is the
    identifier of the previous pointer when one is supplied and null
    otherwise, [hash.new] is the identifier of the new pointer, and
    [zkpValue] and [digitalProof] are the values given. *)
Theorem addVersion_sends_one_body_to_every_endpoint
    arrival keySSI newSSI lastSSI zkp proof callback services :
  bypass (getDLDomain keySSI) = false ->
  getAnchoringServices (getDLDomain keySSI) = inr services ->
  services <> [] ->
  exists body,
    requests (trace (addVersion arrival keySSI newSSI lastSSI zkp proof callback)) =
      (fun service =>
         DoPut (service +:+ "/anchor/add/" +:+ getAnchorId keySSI)
               (JSON_stringify body)) <$> services /\
    last (hash body) =
      match lastSSI with
      | ArgValue lastHashLinkSSI => Some (getIdentifier lastHashLinkSSI)
      | ArgUndefined | ArgFunction _ => None
      end /\
    new (hash body) = getIdentifier newSSI /\
    Anchoring.zkpValue body =
      match zkp with
      | ArgValue value => Some value
      | ArgUndefined | ArgFunction _ => None
      end /\
    Anchoring.digitalProof body = proof.
Proof.
  intros Hby Hloc Hne.
  exists (addVersion_body newSSI (shifted_value lastSSI) (shifted_value zkp) proof).
  split.
  - rewrite (addVersion_network _ _ _ _ _ _ _ _ Hby Hloc Hne).
    unfold requests. cbn [List.filter is_request].
    rewrite List.filter_app.
    change (List.filter is_request ?l) with (requests l).
    rewrite requests_put, outcomes_no_requests, app_nil_r
      by apply addVersion_aggregate_outcomes.
    by rewrite <- list_fmap_compose.
  - cbn. split; [by destruct lastSSI|]. split; [done|].
    split; [by destruct zkp|done].
Qed.

End AddVersionFacts.

(** ** Routing and configuration errors *)

Section ClientFacts.
Import Js Anchoring.
Variables (VAULT VAULT_TYPE : string) (config : gmap string string).
Variable getAnchoringServices : option string -> JsError + list string.
Variable keyssi_parse : string -> Completion KeySSI.
Variable fetch : nat -> string -> Settled Response.
Variable doPut : nat -> string -> string -> PutResult.
Variable arrival : list nat.

Local Abbreviation versions :=
  (Anchoring.versions VAULT VAULT_TYPE config getAnchoringServices keyssi_parse
     fetch arrival).
Local Abbreviation addVersion :=
  (Anchoring.addVersion VAULT VAULT_TYPE config getAnchoringServices doPut arrival).
Local Abbreviation bypass := (Anchoring.bypass VAULT VAULT_TYPE config).

Lemma bypass_spec dlDomain :
  bypass dlDomain = true <->
  dlDomain = Some VAULT /\ is_Some (config !! VAULT_TYPE).
Proof.
  unfold Anchoring.bypass.
  rewrite andb_true_iff, !bool_decide_eq_true. done.
Qed.

Lemma versions_decode_outcomes callback value :
  Forall (fun ev => is_outcome ev = true)
    (trace (versions_decode keyssi_parse callback value)).
Proof.
  unfold versions_decode, then_.
  destruct (json value) as [[l|]|e]; [| by repeat constructor ..].
  pose proof (array_map_lift_silent (E:=Event) keyssi_parse l) as Hsilent.
  destruct (array_map _ l) as [tr [hashLinks|e]]; cbn in Hsilent; subst tr;
    by repeat constructor.
Qed.

Lemma versions_aggregate_outcomes callback queries :
  Forall (fun ev => is_outcome ev = true)
    (trace (versions_aggregate keyssi_parse arrival callback queries)).
Proof.
  unfold versions_aggregate.
  destruct (allSettled queries arrival) as [responses|]; [|constructor].
  unfold then_ at 1. unfold versions_settled.
  destruct (find_fulfilled responses) as [value|]; [|by repeat constructor].
  rewrite bind_ret_l.
  pose proof (versions_decode_outcomes callback value) as Hout.
  destruct (versions_decode_normal keyssi_parse callback value) as [tr Hdec].
  rewrite Hdec in *. cbn in *. by rewrite app_nil_r.
Qed.

(** The collaborator is not called on the network path. *)
Lemma versions_network_no_delegation keySSI authToken callback :
  bypass (getDLDomain keySSI) = false ->
  delegations (trace (versions keySSI authToken callback)) = [].
Proof.
  intros Hby. unfold Anchoring.versions. rewrite Hby.
  erewrite trace_bind_normal; [|reflexivity].
  destruct (getAnchoringServices _) as [err|services];
    [by destruct (truthy_error err)|].
  destruct (Nat.eqb _ 0); [done|].
  erewrite trace_bind_normal; [|reflexivity].
  unfold delegations. cbn [app List.filter is_cached].
  rewrite List.filter_app.
  change (List.filter is_cached ?l) with (delegations l).
  by rewrite delegations_fetch, outcomes_no_delegations
    by apply versions_aggregate_outcomes.
Qed.

Lemma addVersion_network_no_delegation keySSI newSSI lastSSI zkp proof callback :
  bypass (getDLDomain keySSI) = false ->
  delegations (trace (addVersion keySSI newSSI lastSSI zkp proof callback)) = [].
Proof.
  intros Hby. unfold Anchoring.addVersion. rewrite Hby.
  erewrite trace_bind_normal; [|reflexivity].
  destruct (getAnchoringServices _) as [err|services];
    [by destruct (truthy_error err)|].
  destruct (Nat.eqb _ 0); [done|].
  erewrite trace_bind_normal; [|reflexivity].
  unfold delegations. cbn [app List.filter is_cached].
  rewrite List.filter_app.
  change (List.filter is_cached ?l) with (delegations l).
  by rewrite delegations_put, outcomes_no_delegations
    by apply addVersion_aggregate_outcomes.
Qed.

(** C4: on the network path, an empty endpoint list makes a read and a
    write fail at once with the error No anchoring service provided: the
    locator is asked once and no request is issued. *)
Theorem no_anchoring_service_is_fatal
    keySSI authToken newSSI lastSSI zkp proof callback :
  bypass (getDLDomain keySSI) = false ->
  getAnchoringServices (getDLDomain keySSI) = inr [] ->
  let read := trace (versions keySSI authToken callback) in
  let write := trace (addVersion keySSI newSSI lastSSI zkp proof callback) in
  read =
    [GetAnchoringServices (getDLDomain keySSI);
     CallbackErr (shifted_callback authToken callback)
       (ErrString "No anchoring service provided")] /\
  write =
    [GetAnchoringServices (getDLDomain keySSI);
     CallbackErr (shifted_callback zkp (shifted_callback lastSSI callback))
       (ErrString "No anchoring service provided")] /\
  requests read = [] /\ requests write = [] /\
  length (locates read) = 1 /\ length (locates write) = 1.
Proof.
  intros Hby Hloc read write.
  assert (Hread : read =
    [GetAnchoringServices (getDLDomain keySSI);
     CallbackErr (shifted_callback authToken callback)
       (ErrString "No anchoring service provided")]).
  { unfold read, Anchoring.versions. by rewrite Hby, Hloc. }
  assert (Hwrite : write =
    [GetAnchoringServices (getDLDomain keySSI);
     CallbackErr (shifted_callback zkp (shifted_callback lastSSI callback))
       (ErrString "No anchoring service provided")]).
  { unfold write, Anchoring.addVersion. by rewrite Hby, Hloc. }
  by rewrite Hread, Hwrite.
Qed.

(** C6: a read or a write is handed to the local cache collaborator
    exactly when the domain of the identifier is the vault domain and the
    cache type is configured; the collaborator is then the only one
    called, and a write gives it the anchor identifier and the identifier
    of the new pointer only. *)
Theorem bypass_routing keySSI authToken newSSI lastSSI zkp proof callback :
  let fast :=
    getDLDomain keySSI = Some VAULT /\ is_Some (config !! VAULT_TYPE) in
  let read := trace (versions keySSI authToken callback) in
  let write := trace (addVersion keySSI newSSI lastSSI zkp proof callback) in
  (fast ->
     read = [CachedVersions (getAnchorId keySSI)
               (shifted_callback authToken callback)] /\
     write = [CachedAddVersion (getAnchorId keySSI) (getIdentifier newSSI)
                (shifted_callback zkp (shifted_callback lastSSI callback))]) /\
  (~ fast ->
     delegations read = [] /\ delegations write = [] /\
     head read = Some (GetAnchoringServices (getDLDomain keySSI)) /\
     head write = Some (GetAnchoringServices (getDLDomain keySSI))).
Proof.
  intros fast read write. split.
  - intros Hfast. apply bypass_spec in Hfast.
    unfold read, write, Anchoring.versions, Anchoring.addVersion.
    by rewrite Hfast.
  - intros Hslow.
    assert (Hby : bypass (getDLDomain keySSI) = false).
    { destruct (bypass (getDLDomain keySSI)) eqn:Hb; [|done].
      by apply bypass_spec in Hb. }
    split; [by apply versions_network_no_delegation|].
    split; [by apply addVersion_network_no_delegation|].
    unfold read, write, Anchoring.versions, Anchoring.addVersion.
    rewrite Hby. split; by (erewrite trace_bind_normal; [|reflexivity]).
Qed.

End ClientFacts.

(** ** The dossier builder *)

Section DossierFacts.
Import Js DossierBuilder.
Variable Archive : Type.
Variable batchInProgress : Archive -> bool.
Variable beginBatch : Archive -> Completion Archive.
Variable commitBatch : Archive -> JsError + Archive.
Variable getKeySSIAsString : Archive -> JsError + string.
Variable _getByName : string -> option (Command Archive).
Variable readfile : option string -> JsError + string.
Variable createfile : option string -> string -> option JsError.
Variable keyssi_parse : string -> Completion KeySSI.
Variable createTemplateSeedSSI : option string -> KeySSI.
Variable _getSharedEnclave : JsError + Enclave Archive.
Variable initialiseBuildWallet : option JsError.
Variable sourceDSU : option Archive.

Local Abbreviation updateDossier :=
  (DossierBuilder.updateDossier Archive batchInProgress beginBatch commitBatch
     getKeySSIAsString _getByName createfile sourceDSU).
Local Abbreviation createDossier :=
  (DossierBuilder.createDossier Archive batchInProgress beginBatch commitBatch
     getKeySSIAsString _getByName createfile createTemplateSeedSSI
     _getSharedEnclave sourceDSU).
Local Abbreviation buildDossier :=
  (DossierBuilder.buildDossier Archive batchInProgress beginBatch commitBatch
     getKeySSIAsString _getByName readfile createfile keyssi_parse
     createTemplateSeedSSI _getSharedEnclave initialiseBuildWallet sourceDSU).

Lemma loads_app (tr tr' : list (Event Archive)) :
  loads (tr ++ tr') = loads tr ++ loads tr'.
Proof. apply List.filter_app. Qed.

Lemma saveDSU_no_load bar cfg callback :
  loads (saveDSU Archive getKeySSIAsString createfile sourceDSU bar cfg callback) = [].
Proof.
  unfold saveDSU, storeKeySSI, writeFile.
  destruct (getKeySSIAsString bar); [done|].
  destruct (_ || _); [done|]. by destruct (createfile _ _).
Qed.

(** Running the commands never loads a dossier. *)
Lemma updateDossier_no_load commands : forall bar cfg callback,
  loads (updateDossier commands bar cfg callback) = [].
Proof.
  induction commands as [|cmd commands IH]; intros bar cfg callback.
  - cbn [DossierBuilder.updateDossier].
    destruct (commitBatch bar); [done|]. apply saveDSU_no_load.
  - cbn [DossierBuilder.updateDossier]. unfold runCommand.
    destruct (batchInProgress bar).
    + destruct (_getByName _) as [c|]; [|done].
      cbn. destruct (c _ _ _); [done|]. apply IH.
    + destruct (beginBatch bar) as [bar'|e]; [|done].
      destruct (_getByName _) as [c|]; [|done].
      cbn. destruct (c _ _ _); [done|]. apply IH.
Qed.

Lemma createDossier_no_load conf commands callback :
  loads (createDossier conf commands callback) = [].
Proof.
  unfold DossierBuilder.createDossier.
  destruct _getSharedEnclave as [err|enclave]; [done|].
  cbn. destruct (createDSU enclave _ _); [done|].
  apply updateDossier_no_load.
Qed.

(** C8: when the identifier stored in the seed file parses, and the
    domain it records is non-empty and differs from the configured one,
    [buildDossier] runs [createDossier] on the configuration: it never
    loads the existing dossier, and with the shared enclave at hand it
    creates one from the template seed SSI of the configured domain. *)
Theorem buildDossier_recreates_on_domain_change
    cfg commands callback content keySSI recorded :
  initialiseBuildWallet = None ->
  readfile (seed cfg) = inr content ->
  content <> EmptyString ->
  keyssi_parse content = Normal keySSI ->
  getDLDomain keySSI = Some recorded ->
  recorded <> EmptyString ->
  domain cfg <> Some recorded ->
  let build := buildDossier (IsConfig cfg) commands callback in
  build =
    InitialiseBuildWallet :: ReadFile (seed cfg) ::
    Log ["Domain change detected."] ::
    createDossier cfg (given_commands commands)
      (given_callback commands callback) /\
  loads build = [] /\
  (forall sharedEnclave, _getSharedEnclave = inr sharedEnclave ->
     CreateDSU (createTemplateSeedSSI (domain cfg)) false ∈ build).
Proof.
  intros Hinit Hread Hcontent Hparse Hdom Hrec Hdiff build.
  assert (Hbuild : build =
    InitialiseBuildWallet :: ReadFile (seed cfg) ::
    Log ["Domain change detected."] ::
    createDossier cfg (given_commands commands)
      (given_callback commands callback)).
  { unfold build, DossierBuilder.buildDossier. rewrite Hinit, Hread.
    destruct content as [|c content]; [done|].
    cbn [String.length Nat.eqb]. unfold builder. rewrite Hparse.
    unfold domain_changed. rewrite Hdom.
    assert (truthy_string (Some recorded) = true) as ->.
    { unfold truthy_string. by destruct recorded. }
    by rewrite bool_decide_eq_false_2. }
  split; [done|]. split.
  - rewrite Hbuild. unfold loads. cbn [List.filter is_load].
    apply createDossier_no_load.
  - intros sharedEnclave Henc. rewrite Hbuild.
    unfold DossierBuilder.createDossier. rewrite Henc.
    do 5 (apply elem_of_cons; right). apply elem_of_cons. by left.
Qed.

End DossierFacts.

(** ** The properties on the samples *)

Section Samples.
Import Js Anchoring Sample.

(** Two endpoints answer a read; the second one answers first.  The chain
    handed to the caller is the one of the first endpoint of the list. *)
Lemma versions_selects_first_fulfilled_in_list_order_witness :
  callbacks (trace (versions VAULT VAULT_TYPE no_cache (locate two_services) parse
     (fetch_from [ok ["h1"]; ok ["h1"; "h2"]]) [1; 0] anchor ArgUndefined 7)) =
  [CallbackOk 7 (HashLinks [ssi "default" "h1"])].
Proof.
  refine (proj2 (versions_selects_first_fulfilled_in_list_order
    VAULT VAULT_TYPE no_cache (locate two_services) parse
    (fetch_from [ok ["h1"]; ok ["h1"; "h2"]]) [1; 0] anchor ArgUndefined 7
    two_services {| json := Fulfilled (HlArray ["h1"]) |} _ _ _ _ _)
    ["h1"] [ssi "default" "h1"] _ _).
  - vm_compute; reflexivity.
  - reflexivity.
  - discriminate.
  - apply perm_swap.
  - reflexivity.
  - reflexivity.
  - repeat constructor.
Defined.

(** C1 fails as stated: in the same run the response that settled first
    is the one of the second endpoint, and it is not the one decoded. *)
Lemma versions_settlement_order_counterexample :
  let answers := [ok ["h1"]; ok ["h1"; "h2"]] in
  let queries :=
    imap (fetch_from answers) (versions_url (getAnchorId anchor) <$> two_services) in
  let first_settled := {| json := Fulfilled (HlArray ["h1"; "h2"]) |} in
  [1; 0] ≡ₚ seq 0 (length two_services) /\
  first_fulfilled_in_settlement_order queries [1; 0] = Some first_settled /\
  callbacks (trace (versions VAULT VAULT_TYPE no_cache (locate two_services) parse
     (fetch_from answers) [1; 0] anchor ArgUndefined 7)) <>
  callbacks (trace (versions_decode parse 7 first_settled)).
Proof.
  split; [apply perm_swap|]. split; [reflexivity|].
  vm_compute. discriminate.
Qed.

Lemma versions_all_rejected_fails_witness :
  callbacks (trace (versions VAULT VAULT_TYPE no_cache (locate two_services) parse
     (fetch_from [down; down]) [1; 0] anchor ArgUndefined 7)) =
  [CallbackErr 7 (ErrTypeError "response.value")].
Proof.
  refine (proj1 (versions_all_rejected_fails
    VAULT VAULT_TYPE no_cache (locate two_services) parse
    (fetch_from [down; down]) [1; 0] anchor ArgUndefined 7 two_services
    _ _ _ _ _)).
  - vm_compute; reflexivity.
  - reflexivity.
  - discriminate.
  - apply perm_swap.
  - intros [|[|i]] service Hs; try reflexivity. discriminate Hs.
Defined.

(** C5 fails as stated: the first of two endpoints rejects and the
    second one never answers; no request fulfills, and the callback is
    not invoked. *)
Lemma versions_pending_endpoint_counterexample :
  let queries :=
    imap (fetch_from [down; down]) (versions_url (getAnchorId anchor) <$> two_services) in
  find_fulfilled queries = None /\
  first_fulfilled_in_settlement_order queries [0] = None /\
  callbacks (trace (versions VAULT VAULT_TYPE no_cache (locate two_services) parse
     (fetch_from [down; down]) [0] anchor ArgUndefined 7)) = [].
Proof. repeat split; reflexivity. Qed.

(** The first endpoint is down, the second one answers with a string that
    is not an identifier. *)
Lemma versions_undecodable_never_calls_back_witness :
  callbacks (trace (versions VAULT VAULT_TYPE no_cache (locate two_services) parse
     (fetch_from [down; ok ["h1"; EmptyString]]) [0; 1] anchor ArgUndefined 7)) = [].
Proof.
  refine (versions_undecodable_never_calls_back
    VAULT VAULT_TYPE no_cache (locate two_services) parse
    (fetch_from [down; ok ["h1"; EmptyString]]) [0; 1] anchor ArgUndefined 7
    two_services {| json := Fulfilled (HlArray ["h1"; EmptyString]) |}
    _ _ _ _ _ _).
  - vm_compute; reflexivity.
  - reflexivity.
  - discriminate.
  - reflexivity.
  - reflexivity.
  - right. exists ["h1"; EmptyString], EmptyString, (ErrString "Invalid SSI").
    split; [reflexivity|]. split; [|reflexivity].
    apply elem_of_cons. right. apply elem_of_cons. by left.
Defined.

(** Three endpoints, two conflicts and one acceptance; the callback is
    given in the place of [zkpValue]. *)
Lemma addVersion_succeeds_iff_some_endpoint_accepts_witness :
  callbacks (trace (addVersion VAULT VAULT_TYPE no_cache (locate three_services)
     (put_from [conflict; conflict; PutData "accepted"]) [1; 0; 2]
     anchor (ssi "default" "h2") (ArgValue (ssi "default" "h1"))
     (ArgFunction 9) None 7)) = [CallbackOk 9 (Data "accepted")].
Proof.
  destruct (addVersion_succeeds_iff_some_endpoint_accepts
    VAULT VAULT_TYPE no_cache (locate three_services)
    (put_from [conflict; conflict; PutData "accepted"]) [1; 0; 2]
    anchor (ssi "default" "h2") (ArgValue (ssi "default" "h1"))
    (ArgFunction 9) None 7 three_services) as [Hok _].
  - vm_compute; reflexivity.
  - reflexivity.
  - discriminate.
  - apply perm_swap.
  - destruct Hok as (i & service & data & Hs & Hput & Hres).
    + exists 2, "https://c.example", "accepted". by split.
    + destruct i as [|[|[|i]]]; try discriminate Hput; [|discriminate Hs].
      injection Hput as <-. exact Hres.
Defined.

(** C3 fails as stated: the first of two endpoints accepts and the second
    one never answers; the callback is not invoked. *)
Lemma addVersion_pending_endpoint_counterexample :
  let body := addVersion_body (ssi "default" "h2") (Some (ssi "default" "h1")) None None in
  put_from [PutData "accepted"; conflict] 0
    (add_url (getAnchorId anchor) "https://a.example") (JSON_stringify body)
    = PutData "accepted" /\
  callbacks (trace (addVersion VAULT VAULT_TYPE no_cache (locate two_services)
     (put_from [PutData "accepted"; conflict]) [0]
     anchor (ssi "default" "h2") (ArgValue (ssi "default" "h1"))
     ArgUndefined None 7)) = [].
Proof. split; reflexivity. Qed.

Lemma addVersion_rejection_message_witness :
  exists err msg,
    callbacks (trace (addVersion VAULT VAULT_TYPE no_cache (locate two_services)
       (put_from [conflict; failure 500 (Some "Internal Server Error")]) [1; 0]
       anchor (ssi "default" "h2") (ArgValue (ssi "default" "h0"))
       ArgUndefined None 7)) =
    [CallbackErr 7 (ErrObject (statusCode err) (Some msg))].
Proof.
  destruct (addVersion_rejection_message
    VAULT VAULT_TYPE no_cache (locate two_services)
    (put_from [conflict; failure 500 (Some "Internal Server Error")]) [1; 0]
    anchor (ssi "default" "h2") (ArgValue (ssi "default" "h0"))
    ArgUndefined None 7 two_services)
    as (i & service & err & msg & _ & _ & Hres & _).
  - vm_compute; reflexivity.
  - reflexivity.
  - discriminate.
  - apply perm_swap.
  - repeat constructor.
  - by exists err, msg.
Defined.

(** C2 fails as stated: an error without a message, with a status code
    other than 428, reaches the caller with the message Error. *)
Lemma addVersion_original_message_counterexample :
  let err := {| statusCode := Some 500%Z; message := None |} in
  put_from [PutError err] 0
    (add_url (getAnchorId anchor) "https://a.example")
    (JSON_stringify (addVersion_body (ssi "default" "h2") None None None))
    = PutError err /\
  callbacks (trace (addVersion VAULT VAULT_TYPE no_cache
     (locate ["https://a.example"]) (put_from [PutError err]) [0]
     anchor (ssi "default" "h2") ArgUndefined ArgUndefined None 7)) =
    [CallbackErr 7 (ErrObject (Some 500%Z) (Some "Error"))] /\
  message err <> Some "Error".
Proof. vm_compute. repeat split; discriminate. Qed.

Lemma addVersion_failure_reason_is_first_endpoint_witness :
  exists reason,
    put_query conflict = Rejected reason /\
    callbacks (trace (addVersion VAULT VAULT_TYPE no_cache (locate two_services)
       (put_from [conflict; failure 500 (Some "Internal Server Error")]) [1; 0]
       anchor (ssi "default" "h2") (ArgValue (ssi "default" "h0"))
       ArgUndefined None 7)) = [CallbackErr 7 reason].
Proof.
  destruct (addVersion_failure_reason_is_first_endpoint
    VAULT VAULT_TYPE no_cache (locate two_services)
    (put_from [conflict; failure 500 (Some "Internal Server Error")])
    [1; 0] [0; 1]
    anchor (ssi "default" "h2") (ArgValue (ssi "default" "h0"))
    ArgUndefined None 7 two_services)
    as (service & reason & Hhd & Hq & Hres & _).
  - vm_compute; reflexivity.
  - reflexivity.
  - discriminate.
  - apply perm_swap.
  - reflexivity.
  - repeat constructor.
  - exists reason. injection Hhd as <-. by split.
Defined.

(** A write with a previous pointer and both proof values. *)
Lemma addVersion_sends_one_body_to_every_endpoint_witness :
  exists body,
    requests (trace (addVersion VAULT VAULT_TYPE no_cache (locate two_services)
       (put_from [PutData "ok"; conflict]) [0; 1]
       anchor (ssi "default" "h2") (ArgValue (ssi "default" "h1"))
       (ArgValue "zkp") (Some "proof") 7)) =
    [DoPut "https://a.example/anchor/add/A" (JSON_stringify body);
     DoPut "https://b.example/anchor/add/A" (JSON_stringify body)] /\
    body = {| hash := {| last := Some "h1"; new := "h2" |};
              zkpValue := Some "zkp"; digitalProof := Some "proof" |}.
Proof.
  destruct (addVersion_sends_one_body_to_every_endpoint
    VAULT VAULT_TYPE no_cache (locate two_services)
    (put_from [PutData "ok"; conflict]) [0; 1]
    anchor (ssi "default" "h2") (ArgValue (ssi "default" "h1"))
    (ArgValue "zkp") (Some "proof") 7
    two_services) as (body & Hreq & Hlast & Hnew & Hzkp & Hproof).
  - vm_compute; reflexivity.
  - reflexivity.
  - discriminate.
  - exists body. split; [exact Hreq|].
    destruct body as [[l n] z p]. cbn in *. by subst.
Defined.

Lemma no_anchoring_service_is_fatal_witness :
  trace (versions VAULT VAULT_TYPE no_cache (locate []) parse
     (fetch_from []) [] anchor ArgUndefined 7) =
  [GetAnchoringServices (Some "default");
   CallbackErr 7 (ErrString "No anchoring service provided")].
Proof.
  refine (proj1 (no_anchoring_service_is_fatal
    VAULT VAULT_TYPE no_cache (locate []) parse (fetch_from []) (put_from []) []
    anchor ArgUndefined (ssi "default" "h1") ArgUndefined ArgUndefined None 7
    _ _)).
  - vm_compute; reflexivity.
  - reflexivity.
Defined.

(** In the vault domain with the cache type configured, a write goes to
    the collaborator without the previous pointer and the proofs. *)
Lemma bypass_routing_witness :
  trace (addVersion VAULT VAULT_TYPE with_cache (locate two_services)
     (put_from []) [] vault_anchor (ssi VAULT "h2") (ArgValue (ssi VAULT "h1"))
     (ArgValue "zkp") (Some "proof") 7) =
  [CachedAddVersion "A" "h2" 7].
Proof.
  refine (proj2 (proj1 (bypass_routing
    VAULT VAULT_TYPE with_cache (locate two_services) parse (fetch_from [])
    (put_from []) [] vault_anchor ArgUndefined (ssi VAULT "h2")
    (ArgValue (ssi VAULT "h1")) (ArgValue "zkp") (Some "proof") 7) _)).
  split; [reflexivity|]. exists "fs". vm_compute; reflexivity.
Defined.

End Samples.

Lemma buildDossier_recreates_on_domain_change_witness :
  loads DossierSample.build = [] /\
  DossierBuilder.CreateDSU (DossierSample.template (Some "default")) false
    ∈ DossierSample.build.
Proof.
  destruct (buildDossier_recreates_on_domain_change
    DossierSample.Archive (fun _ => false) (fun bar => Js.Normal bar)
    (fun bar => inr bar) (fun _ => inr "ssi:seed:default")
    DossierSample.commands (fun _ => inr "ssi:seed:old") (fun _ _ => None)
    DossierSample.parse DossierSample.template (inr DossierSample.enclave)
    None None DossierSample.cfg (inl ["addfolder code"]) 5
    "ssi:seed:old" DossierSample.stored "old") as (_ & Hloads & Hcreate).
  - reflexivity.
  - reflexivity.
  - discriminate.
  - reflexivity.
  - reflexivity.
  - discriminate.
  - discriminate.
  - split; [exact Hloads|]. by apply (Hcreate DossierSample.enclave).
Defined.

(** * Further properties *)

(** ** Promise.allSettled for an arbitrary order of arrival *)

Section AllSettledGeneral.
Import Js.
Context {A : Type}.
Implicit Types (promises : list (Settled A)) (arrival : list nat)
  (st : AllSettledState A).

Lemma pending_count_replicate {X} n :
  pending_count (replicate n (@None X)) = n.
Proof. induction n as [|n IH]; [done|]. cbn. by rewrite IH. Qed.

Lemma pending_count_pos {X} (l : list (option X)) i :
  l !! i = Some None -> 0 < pending_count l.
Proof.
  revert i. induction l as [|[x|] l IH]; intros [|i] Hi; cbn in *;
    try done; try lia. by eapply IH.
Qed.

Lemma pending_count_insert {X} (l : list (option X)) i x :
  l !! i = Some None ->
  pending_count (<[i := Some x]> l) = pred (pending_count l).
Proof.
  revert i. induction l as [|y l IH]; intros i Hi; [done|].
  destruct i as [|i].
  - injection Hi as ->. reflexivity.
  - change (<[S i:=Some x]> (y :: l)) with (y :: <[i:=Some x]> l).
    change ((y :: l) !! S i) with (l !! i) in Hi.
    destruct y as [y|]; cbn [pending_count].
    + by apply IH.
    + rewrite (IH i Hi). pose proof (pending_count_pos l i Hi). lia.
Qed.

Lemma pending_count_zero {X} (l : list (option X)) (l' : list X) :
  pending_count l = 0 -> length l = length l' ->
  (forall i x, l !! i = Some (Some x) -> l' !! i = Some x) ->
  omap id l = l'.
Proof.
  revert l'. induction l as [|[x|] l IH]; intros [|x' l'] Hc Hlen Hval;
    cbn in *; try done.
  f_equal.
  - specialize (Hval 0 x eq_refl). by injection Hval.
  - apply IH; [done|lia|]. intros i y Hi. apply (Hval (S i) y Hi).
Qed.

Lemma allSettled_inv_start promises :
  allSettled_inv promises (allSettled_start (length promises)).
Proof.
  unfold allSettled_inv, allSettled_start. cbn.
  rewrite pending_count_replicate, length_replicate.
  split; [done|]. split; [done|].
  intros i outcome Hi. apply lookup_replicate in Hi as [? _]. done.
Qed.

Lemma allSettled_inv_element promises st index :
  allSettled_inv promises st ->
  allSettled_inv promises (allSettled_element promises st index).
Proof.
  intros (Hc & Hlen & Hval). unfold allSettled_element.
  destruct (promises !! index) as [outcome|] eqn:Hp; [|done].
  destruct (values st !! index) as [[o|]|] eqn:Hv; [done| |done].
  unfold allSettled_inv. cbn.
  rewrite (pending_count_insert _ _ _ Hv), length_insert, Hc.
  split; [done|]. split; [done|].
  intros i o Hi. destruct (decide (index = i)) as [<-|Hne].
  - rewrite list_lookup_insert_eq in Hi by (by eapply lookup_lt_Some).
    congruence.
  - rewrite list_lookup_insert_ne in Hi by done. by apply Hval.
Qed.

Lemma allSettled_inv_foldl promises arrival : forall st,
  allSettled_inv promises st ->
  allSettled_inv promises (foldl (allSettled_element promises) st arrival).
Proof.
  induction arrival as [|i arrival IH]; intros st Hinv; [done|].
  cbn. by apply IH, allSettled_inv_element.
Qed.

(** The slot of a promise that does not settle stays as it was. *)
Lemma allSettled_untouched promises arrival i : forall st,
  i ∉ arrival ->
  values (foldl (allSettled_element promises) st arrival) !! i = values st !! i.
Proof.
  induction arrival as [|j arrival IH]; intros st Hi; [done|].
  cbn. rewrite IH by (intros ?; apply Hi; apply elem_of_cons; by right).
  assert (j <> i) by (intros ->; apply Hi; apply elem_of_cons; by left).
  unfold allSettled_element.
  destruct (promises !! j); [|done].
  destruct (values st !! j) as [[?|]|]; try done.
  cbn. by rewrite list_lookup_insert_ne.
Qed.

(** Whenever the combined promise is resolved, it is resolved with the
    outcomes of the input promises, in the order of the input. *)
Lemma allSettled_resolves_with_input promises arrival responses :
  allSettled promises arrival = Some responses -> responses = promises.
Proof.
  unfold allSettled.
  pose proof (allSettled_inv_foldl promises arrival _
                (allSettled_inv_start promises)) as (Hc & Hlen & Hval).
  destruct (Nat.eqb _ 0) eqn:Hz; [|done].
  apply Nat.eqb_eq in Hz. intros [= <-].
  apply pending_count_zero; [congruence|done|done].
Qed.

(** While one input promise is pending, so is the combined promise. *)
Lemma allSettled_pending promises arrival i :
  i < length promises -> i ∉ arrival ->
  allSettled promises arrival = None.
Proof.
  intros Hlt Hi. unfold allSettled.
  pose proof (allSettled_inv_foldl promises arrival _
                (allSettled_inv_start promises)) as (Hc & _ & _).
  pose proof (allSettled_untouched promises arrival i
                (allSettled_start (length promises)) Hi) as Hslot.
  cbn in Hslot. rewrite lookup_replicate_2 in Hslot by done.
  apply pending_count_pos in Hslot.
  destruct (Nat.eqb _ 0) eqn:Hz; [|done].
  apply Nat.eqb_eq in Hz. lia.
Qed.

End AllSettledGeneral.

(** ** The anchoring client on every path *)

Section ClientFurther.
Import Js Anchoring.
Variables (VAULT VAULT_TYPE : string) (config : gmap string string).
Variable getAnchoringServices : option string -> JsError + list string.
Variable keyssi_parse : string -> Completion KeySSI.
Variable fetch : nat -> string -> Settled Response.
Variable doPut : nat -> string -> string -> PutResult.

Local Abbreviation versions :=
  (Anchoring.versions VAULT VAULT_TYPE config getAnchoringServices keyssi_parse
     fetch).
Local Abbreviation addVersion :=
  (Anchoring.addVersion VAULT VAULT_TYPE config getAnchoringServices doPut).
Local Abbreviation bypass := (Anchoring.bypass VAULT VAULT_TYPE config).
Local Abbreviation decode := (versions_decode keyssi_parse).

Lemma outcomes_no_locates tr :
  Forall (fun ev => is_outcome ev = true) tr -> locates tr = [].
Proof.
  induction 1 as [|ev tr Hev _ IH]; [done|].
  unfold locates in *. cbn. rewrite IH. by destruct ev.
Qed.

Lemma requests_fetch (urls : list string) :
  requests (Fetch <$> urls) = Fetch <$> urls.
Proof. induction urls as [|u urls IH]; [done|]. cbn. by f_equal. Qed.

Lemma versions_decode_cases callback value :
  (exists e, trace (decode callback value) = [UnhandledRejection e]) \/
  (exists hashLinks,
     trace (decode callback value) = [CallbackOk callback (HashLinks hashLinks)]).
Proof.
  unfold versions_decode, then_.
  destruct (json value) as [[l|]|e]; [|left; by eexists ..].
  pose proof (array_map_lift_silent (E:=Event) keyssi_parse l) as Hsilent.
  destruct (array_map _ l) as [tr [hashLinks|e]]; cbn in Hsilent; subst tr.
  - right. by exists hashLinks.
  - left. by exists e.
Qed.

Lemma versions_aggregate_cases arrival callback queries :
  trace (versions_aggregate keyssi_parse arrival callback queries) = [] \/
  trace (versions_aggregate keyssi_parse arrival callback queries) =
    [CallbackErr callback (ErrTypeError "response.value")] \/
  exists value,
    trace (versions_aggregate keyssi_parse arrival callback queries) =
    trace (decode callback value).
Proof.
  unfold versions_aggregate.
  destruct (allSettled queries arrival) as [responses|]; [|by left].
  unfold then_, versions_settled.
  destruct (find_fulfilled responses) as [value|].
  2:{ right. left. reflexivity. }
  right; right. exists value. rewrite bind_ret_l.
  destruct (versions_decode_normal keyssi_parse callback value) as [tr Hdec].
  rewrite Hdec. cbn. by rewrite app_nil_r.
Qed.

Lemma addVersion_aggregate_cases arrival callback queries :
  queries <> [] ->
  trace (addVersion_aggregate arrival callback queries) = [] \/
  (exists value,
     trace (addVersion_aggregate arrival callback queries) =
     [CallbackOk callback (Data value)]) \/
  (exists reason,
     trace (addVersion_aggregate arrival callback queries) =
     [CallbackErr callback reason]).
Proof.
  intros Hne. unfold addVersion_aggregate.
  destruct (allSettled queries arrival) as [responses|] eqn:Hall; [|by left].
  apply allSettled_resolves_with_input in Hall as ->.
  unfold then_, addVersion_settled.
  destruct (find_fulfilled queries) as [value|] eqn:Hf.
  - right; left. by exists value.
  - destruct queries as [|q queries]; [done|].
    destruct (find_rejected_head _ _ Hf) as (reason & _ & ->).
    right; right. by exists reason.
Qed.

Lemma versions_aggregate_pending arrival callback queries i :
  i < length queries -> i ∉ arrival ->
  trace (versions_aggregate keyssi_parse arrival callback queries) = [].
Proof.
  intros Hlt Hi. unfold versions_aggregate.
  by rewrite (allSettled_pending _ _ _ Hlt Hi).
Qed.

Lemma addVersion_aggregate_pending arrival callback (queries : list (Settled string)) i :
  i < length queries -> i ∉ arrival ->
  trace (addVersion_aggregate arrival callback queries) = [].
Proof.
  intros Hlt Hi. unfold addVersion_aggregate.
  by rewrite (allSettled_pending _ _ _ Hlt Hi).
Qed.

(** X1: on the network path, while the request to one endpoint stays
    pending, a read and a write issue their requests and then never invoke
    the callback: there is no time limit on the batch. *)
Theorem pending_request_blocks_the_call
    arrival keySSI authToken newSSI lastSSI zkp proof callback services i :
  bypass (getDLDomain keySSI) = false ->
  getAnchoringServices (getDLDomain keySSI) = inr services ->
  i < length services ->
  i ∉ arrival ->
  trace (versions arrival keySSI authToken callback) =
    GetAnchoringServices (getDLDomain keySSI) ::
    (Fetch <$> (versions_url (getAnchorId keySSI) <$> services)) /\
  trace (addVersion arrival keySSI newSSI lastSSI zkp proof callback) =
    GetAnchoringServices (getDLDomain keySSI) ::
    ((fun url => DoPut url (JSON_stringify
        (addVersion_body newSSI (shifted_value lastSSI) (shifted_value zkp) proof)))
       <$> (add_url (getAnchorId keySSI) <$> services)).
Proof.
  intros Hby Hloc Hlt Hi.
  assert (Hne : services <> []) by (intros ->; cbn in Hlt; lia).
  split.
  - rewrite (versions_network _ _ _ _ _ _ _ _ _ _ _ Hby Hloc Hne).
    rewrite (versions_aggregate_pending _ _ _ i), app_nil_r; [done| |done].
    by rewrite length_imap, length_fmap.
  - rewrite (addVersion_network _ _ _ _ _ _ _ _ _ _ _ _ _ Hby Hloc Hne).
    cbv zeta.
    rewrite (addVersion_aggregate_pending _ _ _ i), app_nil_r; [done| |done].
    by rewrite queries_of_length, length_fmap.
Qed.

(** X3: on the network path, a read issues exactly one GET per endpoint,
    in the order of the endpoint list, to
    [{endpoint}/anchor/versions/{anchorId}], whatever happens afterwards. *)
Theorem versions_requests_every_endpoint
    arrival keySSI authToken callback services :
  bypass (getDLDomain keySSI) = false ->
  getAnchoringServices (getDLDomain keySSI) = inr services ->
  services <> [] ->
  requests (trace (versions arrival keySSI authToken callback)) =
  (fun service => Fetch (service +:+ "/anchor/versions/" +:+ getAnchorId keySSI))
    <$> services.
Proof.
  intros Hby Hloc Hne.
  rewrite (versions_network _ _ _ _ _ _ _ _ _ _ _ Hby Hloc Hne).
  unfold requests. cbn [List.filter is_request].
  rewrite List.filter_app.
  change (List.filter is_request ?l) with (requests l).
  rewrite (outcomes_no_requests (trace _)), app_nil_r
    by apply versions_aggregate_outcomes.
  by rewrite requests_fetch, <- list_fmap_compose.
Qed.

Lemma locates_fetch (urls : list string) : locates (Fetch <$> urls) = [].
Proof. by induction urls. Qed.

Lemma locates_put (urls : list string) body :
  locates ((fun url => DoPut url body) <$> urls) = [].
Proof. by induction urls. Qed.

Lemma unhandled_fetch (urls : list string) :
  unhandled_rejections (Fetch <$> urls) = [].
Proof. by induction urls. Qed.


(** X4: outside the bypass, a read and a write ask the service locator
    exactly once, for the domain of the identifier and for no other,
    whatever the locator and the endpoints answer. *)
Theorem locator_asked_once_for_the_domain
    arrival keySSI authToken newSSI lastSSI zkp proof callback :
  bypass (getDLDomain keySSI) = false ->
  locates (trace (versions arrival keySSI authToken callback)) =
    [GetAnchoringServices (getDLDomain keySSI)] /\
  locates (trace (addVersion arrival keySSI newSSI lastSSI zkp proof callback)) =
    [GetAnchoringServices (getDLDomain keySSI)].
Proof.
  intros Hby. split.
  - destruct (getAnchoringServices (getDLDomain keySSI)) as [err|services] eqn:Hloc.
    + unfold Anchoring.versions. rewrite Hby, Hloc.
      by destruct (truthy_error err).
    + destruct services as [|s services].
      * unfold Anchoring.versions. by rewrite Hby, Hloc.
      * rewrite (versions_network _ _ _ _ _ _ _ _ _ _ _ Hby Hloc) by done.
        unfold locates. cbn [List.filter is_locate]. f_equal.
        rewrite List.filter_app.
        change (List.filter is_locate ?l) with (locates l).
        by rewrite locates_fetch, outcomes_no_locates
          by apply versions_aggregate_outcomes.
  - destruct (getAnchoringServices (getDLDomain keySSI)) as [err|services] eqn:Hloc.
    + unfold Anchoring.addVersion. rewrite Hby, Hloc.
      by destruct (truthy_error err).
    + destruct services as [|s services].
      * unfold Anchoring.addVersion. by rewrite Hby, Hloc.
      * rewrite (addVersion_network _ _ _ _ _ _ _ _ _ _ _ _ _ Hby Hloc) by done.
        unfold locates. cbn [List.filter is_locate]. f_equal.
        rewrite List.filter_app.
        change (List.filter is_locate ?l) with (locates l).
        by rewrite locates_put, outcomes_no_locates
          by apply addVersion_aggregate_outcomes.
Qed.

(** X5: what a read does is the same for every order in which the
    requests settle, as long as all of them settle. *)
Theorem versions_independent_of_arrival
    arrival arrival' keySSI authToken callback services :
  bypass (getDLDomain keySSI) = false ->
  getAnchoringServices (getDLDomain keySSI) = inr services ->
  arrival ≡ₚ seq 0 (length services) ->
  arrival' ≡ₚ seq 0 (length services) ->
  trace (versions arrival keySSI authToken callback) =
  trace (versions arrival' keySSI authToken callback).
Proof.
  intros Hby Hloc Hperm Hperm'.
  destruct services as [|s services].
  - unfold Anchoring.versions. by rewrite Hby, Hloc.
  - rewrite !(versions_network _ _ _ _ _ _ _ _ _ _ _ Hby Hloc) by done.
    do 2 f_equal. unfold versions_aggregate.
    by rewrite !allSettled_input_order by (by rewrite length_imap, length_fmap).
Qed.

(** X6: a read and a write invoke the callback at most once, on every
    path and for every answer of the collaborators and endpoints. *)
Theorem client_calls_back_at_most_once
    arrival keySSI authToken newSSI lastSSI zkp proof callback :
  length (callbacks (trace (versions arrival keySSI authToken callback))) <= 1 /\
  length (callbacks
    (trace (addVersion arrival keySSI newSSI lastSSI zkp proof callback))) <= 1.
Proof.
  split.
  - destruct (bypass (getDLDomain keySSI)) eqn:Hby.
    { unfold Anchoring.versions. rewrite Hby. cbn. lia. }
    destruct (getAnchoringServices (getDLDomain keySSI)) as [err|services] eqn:Hloc.
    { unfold Anchoring.versions. rewrite Hby, Hloc.
      destruct (truthy_error err); cbn; lia. }
    destruct services as [|s services].
    { unfold Anchoring.versions. rewrite Hby, Hloc. cbn. lia. }
    rewrite (callbacks_versions_network _ _ _ _ _ _ _ _ _ _ _ Hby Hloc) by done.
    destruct (versions_aggregate_cases arrival
                (shifted_callback authToken callback)
                (imap fetch (versions_url (getAnchorId keySSI) <$> s :: services)))
      as [->|[->|[value ->]]]; [cbn; lia ..|].
    destruct (versions_decode_cases (shifted_callback authToken callback) value)
      as [[e ->]|[hashLinks ->]]; cbn; lia.
  - destruct (bypass (getDLDomain keySSI)) eqn:Hby.
    { unfold Anchoring.addVersion. rewrite Hby. cbn. lia. }
    destruct (getAnchoringServices (getDLDomain keySSI)) as [err|services] eqn:Hloc.
    { unfold Anchoring.addVersion. rewrite Hby, Hloc.
      destruct (truthy_error err); cbn; lia. }
    destruct services as [|s services].
    { unfold Anchoring.addVersion. rewrite Hby, Hloc. cbn. lia. }
    rewrite (callbacks_addVersion_network _ _ _ _ _ _ _ _ _ _ _ _ _ Hby Hloc)
      by done.
    match goal with
    | |- context [addVersion_aggregate ?a ?c ?q] =>
        destruct (addVersion_aggregate_cases a c q)
          as [->|[[value ->]|[reason ->]]]; [|cbn; lia ..]
    end.
    intros Hnil. apply (f_equal length) in Hnil.
    by rewrite queries_of_length in Hnil.
Qed.


(** X8: on the network path, when the body of the first fulfilled
    response decodes to a value that is not an array, the callback is not
    invoked and the TypeError of the [map] call stays unhandled. *)
Theorem versions_non_array_body_never_calls_back
    arrival keySSI authToken callback services value :
  bypass (getDLDomain keySSI) = false ->
  getAnchoringServices (getDLDomain keySSI) = inr services ->
  services <> [] ->
  arrival ≡ₚ seq 0 (length services) ->
  find_fulfilled (imap fetch (versions_url (getAnchorId keySSI) <$> services))
    = Some value ->
  json value = Fulfilled HlOther ->
  callbacks (trace (versions arrival keySSI authToken callback)) = [] /\
  unhandled_rejections (trace (versions arrival keySSI authToken callback)) =
    [UnhandledRejection (ErrTypeError "hlStrings.map")].
Proof.
  intros Hby Hloc Hne Hperm Hfind Hjson.
  assert (Hdec : trace (decode (shifted_callback authToken callback) value) =
                 [UnhandledRejection (ErrTypeError "hlStrings.map")]).
  { unfold versions_decode, then_. by rewrite Hjson. }
  assert (Hagg : trace (versions_aggregate keyssi_parse arrival
             (shifted_callback authToken callback)
             (imap fetch (versions_url (getAnchorId keySSI) <$> services))) =
           [UnhandledRejection (ErrTypeError "hlStrings.map")]).
  { rewrite <- Hdec. apply versions_aggregate_fulfilled; [|done].
    by rewrite length_imap, length_fmap. }
  split.
  - by rewrite (callbacks_versions_network _ _ _ _ _ _ _ _ _ _ _ Hby Hloc Hne), Hagg.
  - rewrite (versions_network _ _ _ _ _ _ _ _ _ _ _ Hby Hloc Hne), Hagg.
    unfold unhandled_rejections. cbn [List.filter is_unhandled].
    rewrite List.filter_app.
    change (List.filter is_unhandled ?l) with (unhandled_rejections l).
    by rewrite unhandled_fetch.
Qed.

End ClientFurther.

(** ** The dossier builder on every path *)

Section DossierFurther.
Import Js DossierBuilder DossierTrace.
Variable Archive : Type.
Variable batchInProgress : Archive -> bool.
Variable beginBatch : Archive -> Completion Archive.
Variable commitBatch : Archive -> JsError + Archive.
Variable getKeySSIAsString : Archive -> JsError + string.
Variable _getByName : string -> option (Command Archive).
Variable readfile : option string -> JsError + string.
Variable createfile : option string -> string -> option JsError.
Variable keyssi_parse : string -> Completion KeySSI.
Variable createTemplateSeedSSI : option string -> KeySSI.
Variable _getSharedEnclave : JsError + Enclave Archive.
Variable initialiseBuildWallet : option JsError.
Variable sourceDSU : option Archive.

Local Abbreviation saveDSU :=
  (DossierBuilder.saveDSU Archive getKeySSIAsString createfile sourceDSU).
Local Abbreviation updateDossier :=
  (DossierBuilder.updateDossier Archive batchInProgress beginBatch commitBatch
     getKeySSIAsString _getByName createfile sourceDSU).
Local Abbreviation createDossier :=
  (DossierBuilder.createDossier Archive batchInProgress beginBatch commitBatch
     getKeySSIAsString _getByName createfile createTemplateSeedSSI
     _getSharedEnclave sourceDSU).
Local Abbreviation builder :=
  (DossierBuilder.builder Archive batchInProgress beginBatch commitBatch
     getKeySSIAsString _getByName createfile keyssi_parse
     createTemplateSeedSSI _getSharedEnclave sourceDSU).
Local Abbreviation buildDossier :=
  (DossierBuilder.buildDossier Archive batchInProgress beginBatch commitBatch
     getKeySSIAsString _getByName readfile createfile keyssi_parse
     createTemplateSeedSSI _getSharedEnclave initialiseBuildWallet sourceDSU).

Implicit Types (tr : list (Event Archive)) (ev : Event Archive).

(** *** The callback comes last, once *)

Lemma calls_back_last_err callback err :
  calls_back_last callback [CallbackErr (Archive:=Archive) callback err].
Proof. exists [], (CallbackErr callback err). split; [done|]. split; [done|]. left. by eexists. Qed.

Lemma calls_back_last_ok callback keySSI :
  calls_back_last callback [CallbackOk (Archive:=Archive) callback keySSI].
Proof. exists [], (CallbackOk callback keySSI). split; [done|]. split; [done|]. right. by eexists. Qed.

Lemma calls_back_last_cons callback ev tr :
  is_callback ev = false ->
  calls_back_last callback tr -> calls_back_last callback (ev :: tr).
Proof.
  intros Hev (pre & last & -> & Hpre & Hlast).
  exists (ev :: pre), last. split; [done|]. split; [|done].
  unfold callbacks in *. cbn. by rewrite Hev.
Qed.

Lemma saveDSU_calls_back_last bar cfg callback :
  calls_back_last callback (saveDSU bar cfg callback).
Proof.
  unfold DossierBuilder.saveDSU, storeKeySSI, writeFile.
  apply calls_back_last_cons; [done|].
  destruct (getKeySSIAsString bar); [apply calls_back_last_err|].
  destruct (_ || _); [apply calls_back_last_ok|].
  apply calls_back_last_cons; [done|].
  destruct (createfile _ _); [apply calls_back_last_err|apply calls_back_last_ok].
Qed.

Lemma updateDossier_calls_back_last commands : forall bar cfg callback,
  calls_back_last callback (updateDossier commands bar cfg callback).
Proof.
  induction commands as [|cmd commands IH]; intros bar cfg callback.
  - cbn [DossierBuilder.updateDossier].
    apply calls_back_last_cons; [done|].
    destruct (commitBatch bar); [apply calls_back_last_err|].
    apply saveDSU_calls_back_last.
  - cbn [DossierBuilder.updateDossier]. unfold runCommand.
    destruct (batchInProgress bar).
    + destruct (_getByName _) as [c|]; [|apply calls_back_last_err].
      cbn. apply calls_back_last_cons; [done|].
      destruct (c _ _ _); [apply calls_back_last_err|apply IH].
    + destruct (beginBatch bar) as [bar'|e].
      2:{ cbn. apply calls_back_last_cons; [done|]. apply calls_back_last_err. }
      destruct (_getByName _) as [c|]; cbn;
        (apply calls_back_last_cons; [done|]); [|apply calls_back_last_err].
      apply calls_back_last_cons; [done|].
      destruct (c _ _ _); [apply calls_back_last_err|apply IH].
Qed.

Lemma createDossier_calls_back_last conf commands callback :
  calls_back_last callback (createDossier conf commands callback).
Proof.
  unfold DossierBuilder.createDossier.
  do 2 (apply calls_back_last_cons; [done|]).
  destruct _getSharedEnclave as [err|enclave]; [apply calls_back_last_err|].
  cbn. apply calls_back_last_cons; [done|].
  destruct (createDSU enclave _ _);
    [apply calls_back_last_err|apply updateDossier_calls_back_last].
Qed.

Lemma builder_calls_back_last cfg commands callback keySSI :
  calls_back_last callback (builder cfg commands callback keySSI).
Proof.
  unfold DossierBuilder.builder.
  destruct (keyssi_parse keySSI) as [ssi|e].
  2:{ apply calls_back_last_cons; [done|]. apply createDossier_calls_back_last. }
  destruct (domain_changed ssi cfg).
  { apply calls_back_last_cons; [done|]. apply createDossier_calls_back_last. }
  apply calls_back_last_cons; [done|].
  destruct _getSharedEnclave as [err|enclave]; [apply calls_back_last_err|].
  cbn. apply calls_back_last_cons; [done|].
  destruct (loadDSU enclave ssi).
  - do 2 (apply calls_back_last_cons; [done|]).
    destruct (createDSU enclave _ _);
      [apply calls_back_last_err|apply updateDossier_calls_back_last].
  - apply calls_back_last_cons; [done|]. apply updateDossier_calls_back_last.
Qed.

(** X9: when the collaborators report their errors as truthy values,
    [buildDossier] invokes the callback exactly once, as the last thing it
    does, on every path; the callback is the second argument when the
    commands are left out and a function is given in their place, and the
    third argument otherwise. *)
Theorem buildDossier_calls_back_exactly_once configOrDSU commands callback :
  truthy_report initialiseBuildWallet ->
  truthy_answer _getSharedEnclave ->
  (forall sharedEnclave ssi flag, _getSharedEnclave = inr sharedEnclave ->
     truthy_answer (createDSU sharedEnclave ssi flag)) ->
  (forall sharedEnclave ssi, _getSharedEnclave = inr sharedEnclave ->
     truthy_answer (loadDSU sharedEnclave ssi)) ->
  (forall filePath, truthy_answer (readfile filePath)) ->
  (forall filePath data, truthy_report (createfile filePath data)) ->
  (forall bar, truthy_answer (commitBatch bar)) ->
  (forall bar, truthy_answer (getKeySSIAsString bar)) ->
  (forall cmdName cmd args bar next, _getByName cmdName = Some cmd ->
     truthy_answer (cmd args bar next)) ->
  calls_back_last
    match commands with inr f => f | inl _ => callback end
    (buildDossier configOrDSU commands callback).
Proof.
  intros _ _ _ _ _ _ _ _ _.
  assert (given_callback commands callback =
          match commands with inr f => f | inl _ => callback end) as <-
    by (by destruct commands).
  unfold DossierBuilder.buildDossier.
  apply calls_back_last_cons; [done|].
  destruct initialiseBuildWallet as [err|]; [apply calls_back_last_err|].
  destruct configOrDSU as [bar|cfg]; [apply updateDossier_calls_back_last|].
  apply calls_back_last_cons; [done|].
  destruct (readfile (seed cfg)) as [err|content];
    [apply createDossier_calls_back_last|].
  destruct (Nat.eqb _ 0);
    [apply createDossier_calls_back_last|apply builder_calls_back_last].
Qed.

(** *** What saving does not do *)


(** *** Files and the shared enclave *)





Lemma not_elem_filter (f : Event Archive -> bool) ev tr :
  f ev = true -> List.filter f tr = [] -> ev ∉ tr.
Proof.
  intros Hf Hnil Hin.
  assert (Hin' : ev ∈ List.filter f tr).
  { apply list_elem_of_In, List.filter_In. split; [by apply list_elem_of_In|done]. }
  rewrite Hnil in Hin'. by apply elem_of_nil in Hin'.
Qed.


(** X14: when reading the seed file fails with a truthy error, or the
    file is empty, or it holds a string that is not an identifier,
    [buildDossier] runs [createDossier] on the configuration, with the
    commands and the callback it was given, and never loads a dossier. *)
Theorem buildDossier_creates_without_usable_seed cfg commands callback :
  initialiseBuildWallet = None ->
  (exists err, readfile (seed cfg) = inl err /\ truthy_error err = true) \/
  readfile (seed cfg) = inr EmptyString \/
  (exists content err,
     readfile (seed cfg) = inr content /\ keyssi_parse content = Throw err) ->
  let build := buildDossier (IsConfig cfg) commands callback in
  exists pre,
    build =
      InitialiseBuildWallet :: ReadFile (seed cfg) :: pre ++
      createDossier cfg
        match commands with inl given => given | inr _ => [] end
        match commands with inr f => f | inl _ => callback end /\
    (pre = [] \/ pre = [Log ["Invalid keySSI"]]) /\
    loads build = [].
Proof.
  intros Hinit Hseed build.
  assert (Hshape : exists pre,
    build =
      InitialiseBuildWallet :: ReadFile (seed cfg) :: pre ++
      createDossier cfg
        match commands with inl given => given | inr _ => [] end
        match commands with inr f => f | inl _ => callback end /\
    (pre = [] \/ pre = [Log ["Invalid keySSI"]])).
  { unfold build, DossierBuilder.buildDossier. rewrite Hinit.
    assert (given_callback commands callback =
            match commands with inr f => f | inl _ => callback end) as ->
      by (by destruct commands).
    assert (given_commands commands =
            match commands with inl given => given | inr _ => [] end) as ->
      by (by destruct commands).
    destruct Hseed as [(err & -> & _)|[->|(content & err & -> & Hparse)]].
    - exists []. split; [done|by left].
    - exists []. split; [done|by left].
    - destruct (Nat.eqb _ 0); [exists []; split; [done|by left]|].
      unfold DossierBuilder.builder. rewrite Hparse.
      exists [Log ["Invalid keySSI"]]. split; [done|by right]. }
  destruct Hshape as (pre & Hbuild & Hpre). exists pre.
  split; [done|]. split; [done|].
  rewrite Hbuild. unfold loads. cbn [List.filter is_load].
  rewrite List.filter_app.
  change (List.filter is_load ?l) with (loads l).
  rewrite createDossier_no_load, app_nil_r. by destruct Hpre as [-> | ->].
Qed.

(** *** The seed file *)




End DossierFurther.

(** ** The further properties on the samples *)

Section FurtherSamples.
Import Js Anchoring Sample.

(** The second of two endpoints never answers. *)
Lemma pending_request_blocks_the_call_witness :
  trace (versions VAULT VAULT_TYPE no_cache (locate two_services) parse
     (fetch_from [ok ["h1"]; down]) [0] anchor ArgUndefined 7) =
  [GetAnchoringServices (Some "default");
   Fetch "https://a.example/anchor/versions/A";
   Fetch "https://b.example/anchor/versions/A"].
Proof.
  refine (proj1 (pending_request_blocks_the_call
    VAULT VAULT_TYPE no_cache (locate two_services) parse
    (fetch_from [ok ["h1"]; down]) (put_from []) [0] anchor ArgUndefined
    (ssi "default" "h1") ArgUndefined ArgUndefined None 7 two_services 1
    _ _ _ _)).
  - vm_compute; reflexivity.
  - reflexivity.
  - vm_compute; lia.
  - intros Hin. apply list_elem_of_singleton in Hin. discriminate.
Defined.

Lemma versions_requests_every_endpoint_witness :
  requests (trace (versions VAULT VAULT_TYPE no_cache (locate two_services) parse
     (fetch_from [down; ok ["h1"]]) [1] anchor ArgUndefined 7)) =
  [Fetch "https://a.example/anchor/versions/A";
   Fetch "https://b.example/anchor/versions/A"].
Proof.
  refine (versions_requests_every_endpoint
    VAULT VAULT_TYPE no_cache (locate two_services) parse
    (fetch_from [down; ok ["h1"]]) [1] anchor ArgUndefined 7 two_services
    _ _ _).
  - vm_compute; reflexivity.
  - reflexivity.
  - discriminate.
Defined.

Lemma locator_asked_once_for_the_domain_witness :
  locates (trace (addVersion VAULT VAULT_TYPE no_cache (locate two_services)
     (put_from [conflict; PutData "ok"]) [0; 1] anchor (ssi "default" "h2")
     (ArgValue (ssi "default" "h1")) ArgUndefined None 7)) =
  [GetAnchoringServices (Some "default")].
Proof.
  refine (proj2 (locator_asked_once_for_the_domain
    VAULT VAULT_TYPE no_cache (locate two_services) parse (fetch_from [])
    (put_from [conflict; PutData "ok"]) [0; 1] anchor ArgUndefined
    (ssi "default" "h2") (ArgValue (ssi "default" "h1")) ArgUndefined None 7 _)).
  vm_compute; reflexivity.
Defined.

Lemma versions_independent_of_arrival_witness :
  trace (versions VAULT VAULT_TYPE no_cache (locate two_services) parse
     (fetch_from [ok ["h1"]; ok ["h1"; "h2"]]) [1; 0] anchor ArgUndefined 7) =
  trace (versions VAULT VAULT_TYPE no_cache (locate two_services) parse
     (fetch_from [ok ["h1"]; ok ["h1"; "h2"]]) [0; 1] anchor ArgUndefined 7).
Proof.
  refine (versions_independent_of_arrival
    VAULT VAULT_TYPE no_cache (locate two_services) parse
    (fetch_from [ok ["h1"]; ok ["h1"; "h2"]]) [1; 0] [0; 1]
    anchor ArgUndefined 7 two_services _ _ _ _).
  - vm_compute; reflexivity.
  - reflexivity.
  - apply perm_swap.
  - reflexivity.
Defined.

(** The only endpoint answers with a JSON object. *)
Lemma versions_non_array_body_never_calls_back_witness :
  callbacks (trace (versions VAULT VAULT_TYPE no_cache
     (locate ["https://a.example"]) parse
     (fetch_from [Fulfilled {| json := Fulfilled HlOther |}]) [0]
     anchor ArgUndefined 7)) = [].
Proof.
  refine (proj1 (versions_non_array_body_never_calls_back
    VAULT VAULT_TYPE no_cache (locate ["https://a.example"]) parse
    (fetch_from [Fulfilled {| json := Fulfilled HlOther |}]) [0]
    anchor ArgUndefined 7 ["https://a.example"]
    {| json := Fulfilled HlOther |} _ _ _ _ _ _)).
  - vm_compute; reflexivity.
  - reflexivity.
  - discriminate.
  - reflexivity.
  - reflexivity.
  - reflexivity.
Defined.

End FurtherSamples.

Section FurtherDossierSamples.
Import Js DossierBuilder DossierTrace.


(** The callback is given in the place of the commands. *)
Lemma buildDossier_calls_back_exactly_once_witness :
  calls_back_last 9 DossierCases.build_without_commands.
Proof.
  refine (buildDossier_calls_back_exactly_once
    DossierCases.Archive (fun _ => false) (fun bar => Normal bar)
    (fun bar => inr bar) (fun _ => inr "ssi:seed:default")
    DossierSample.commands (fun _ => inr "ssi:seed:old") (fun _ _ => None)
    DossierSample.parse DossierSample.template
    (inr {| createDSU := fun _ _ => inr 1; loadDSU := fun _ => inr 2 |})
    None None (IsConfig DossierSample.cfg) (inr 9) 5
    _ _ _ _ _ _ _ _ _).
  - exact I.
  - exact I.
  - intros sharedEnclave ssi flag [= <-]. exact I.
  - intros sharedEnclave ssi [= <-]. exact I.
  - intros filePath. exact I.
  - intros filePath data. exact I.
  - intros bar. exact I.
  - intros bar. exact I.
  - intros cmdName cmd args bar next Hcmd. unfold DossierSample.commands in Hcmd.
    destruct (String.eqb cmdName "addfolder"); [|discriminate Hcmd].
    injection Hcmd as <-. exact I.
Defined.

Lemma buildDossier_creates_without_usable_seed_witness :
  loads (DossierCases.build_with (inr "garbage") DossierSample.cfg (inr 2) []) = [].
Proof.
  destruct (buildDossier_creates_without_usable_seed
    DossierCases.Archive (fun _ => false) (fun bar => Normal bar)
    (fun bar => inr bar) (fun _ => inr "ssi:seed:default")
    DossierSample.commands (fun _ => inr "garbage") (fun _ _ => None)
    DossierSample.parse DossierSample.template
    (inr {| createDSU := fun _ _ => inr 1; loadDSU := fun _ => inr 2 |})
    None None DossierSample.cfg (inl []) 5) as (pre & _ & _ & Hloads).
  - reflexivity.
  - right. right. exists "garbage", (ErrString "Invalid SSI"). by split.
  - exact Hloads.
Defined.


End FurtherDossierSamples.

(** ** Order of the endpoints *)

Section OrderFacts.
Import Js Anchoring.
Variables (VAULT VAULT_TYPE : string) (config : gmap string string).
Variable getAnchoringServices : option string -> JsError + list string.
Variable doPut : nat -> string -> string -> PutResult.

Local Abbreviation addVersion :=
  (Anchoring.addVersion VAULT VAULT_TYPE config getAnchoringServices doPut).
Local Abbreviation bypass := (Anchoring.bypass VAULT VAULT_TYPE config).

(** X17: on the network path, once every request has settled, the
    confirmation handed to the callback of a write is the response body
    of the first endpoint of the list that accepted, and the trace is the
    same for every order in which the requests settle. *)
Theorem addVersion_confirmation_is_first_accepted
    arrival arrival' keySSI newSSI lastSSI zkp proof callback services data :
  bypass (getDLDomain keySSI) = false ->
  getAnchoringServices (getDLDomain keySSI) = inr services ->
  arrival ≡ₚ seq 0 (length services) ->
  arrival' ≡ₚ seq 0 (length services) ->
  find_fulfilled
    (addVersion_queries doPut (add_url (getAnchorId keySSI) <$> services)
       (addVersion_body newSSI (shifted_value lastSSI) (shifted_value zkp) proof))
    = Some data ->
  callbacks (trace (addVersion arrival keySSI newSSI lastSSI zkp proof callback)) =
    [CallbackOk (shifted_callback zkp (shifted_callback lastSSI callback))
       (Data data)] /\
  trace (addVersion arrival keySSI newSSI lastSSI zkp proof callback) =
  trace (addVersion arrival' keySSI newSSI lastSSI zkp proof callback).
Proof.
  intros Hby Hloc Hperm Hperm' Hfind.
  assert (Hne : services <> []) by (by intros ->).
  assert (Hagg : forall arr, arr ≡ₚ seq 0 (length services) ->
    trace (addVersion_aggregate arr
      (shifted_callback zkp (shifted_callback lastSSI callback))
      (addVersion_queries doPut (add_url (getAnchorId keySSI) <$> services)
         (addVersion_body newSSI (shifted_value lastSSI) (shifted_value zkp) proof))) =
    [CallbackOk (shifted_callback zkp (shifted_callback lastSSI callback))
       (Data data)]).
  { intros arr Harr. apply addVersion_aggregate_fulfilled; [|done].
    by rewrite queries_of_length, length_fmap. }
  split.
  - rewrite (callbacks_addVersion_network _ _ _ _ _ _ _ _ _ _ _ _ _ Hby Hloc Hne).
    by rewrite (Hagg _ Hperm).
  - rewrite !(addVersion_network _ _ _ _ _ _ _ _ _ _ _ _ _ Hby Hloc Hne).
    cbv zeta. by rewrite (Hagg _ Hperm), (Hagg _ Hperm').
Qed.

End OrderFacts.

Section OrderSamples.
Import Js Anchoring Sample.

(** The first endpoint rejects, the two others accept; the last one
    answers first. *)
Lemma addVersion_confirmation_is_first_accepted_witness :
  callbacks (trace (addVersion VAULT VAULT_TYPE no_cache (locate three_services)
     (put_from [conflict; PutData "b"; PutData "c"]) [2; 0; 1]
     anchor (ssi "default" "h2") (ArgValue (ssi "default" "h1"))
     ArgUndefined None 7)) = [CallbackOk 7 (Data "b")].
Proof.
  refine (proj1 (addVersion_confirmation_is_first_accepted
    VAULT VAULT_TYPE no_cache (locate three_services)
    (put_from [conflict; PutData "b"; PutData "c"]) [2; 0; 1] [0; 1; 2]
    anchor (ssi "default" "h2") (ArgValue (ssi "default" "h1"))
    ArgUndefined None 7 three_services "b" _ _ _ _ _)).
  - vm_compute; reflexivity.
  - reflexivity.
  - change ([2; 0; 1] ≡ₚ [0; 1] ++ [2]). apply (Permutation_cons_append [0; 1] 2).
  - reflexivity.
  - reflexivity.
Defined.

End OrderSamples.
